(** * ossutil: the [lcb] and [appendfromfile] command handlers

    A shallow embedding of [lib/lcb.go] and [lib/append_file.go].

    Both handlers are thin orchestration layers over the OSS SDK, the local
    file system and the shared [Command] helpers.  None of those live in the
    two files, so they are taken as a record of oracles (the [Host]); the
    handlers themselves are transcribed statement by statement.  Every call
    that leaves the handler (client construction, SDK request, file system
    access, output on stdout) is appended to a trace, and the properties
    below are statements about the returned error and that trace. *)

From Stdlib Require Import ZArith Lia Ascii String.
From stdpp Require Import base decidable countable strings list gmap pretty.

Local Open Scope Z_scope.

(** ** Go values *)

(** The [error] interface.  [nil] is the nil interface value, [errorString]
    is what [errors.New] and [fmt.Errorf] build, [NumError] is
    [*strconv.NumError]. *)
Inductive error : Type :=
  | nil
  | errorString (s : string)
  | NumError (Func Num : string) (Err : error).

Definition is_nil (e : error) : bool :=
  match e with nil => true | _ => false end.

Definition ErrSyntax : error := errorString "invalid syntax".
Definition ErrRange : error := errorString "value out of range".

(** Two's complement integers: Go's [int64], and [int] on the 64-bit targets
    the tool is built for.  Values are kept as [Z] in
    [MinInt64 .. MaxInt64]; arithmetic wraps. *)
Definition MaxInt64 : Z := 9223372036854775807.
Definition MinInt64 : Z := -9223372036854775808.

Definition wrap64 (z : Z) : Z := (z + 2 ^ 63) mod 2 ^ 64 - 2 ^ 63.

Definition int64_add (a b : Z) : Z := wrap64 (a + b).

(** [len] of a slice, as an [int]. *)
Definition len {A} (l : list A) : Z := Z.of_nat (length l).

(** ** The command line *)

(** Names of the options the two handlers read (the [Option...] constants of
    the option table). *)
Inductive OptionName : Type :=
  | OptionLimitedNum
  | OptionMarker
  | OptionRetryTimes
  | OptionEncodingType
  | OptionMeta.

Global Instance OptionName_eq_dec : EqDecision OptionName.
Proof. solve_decision. Defined.

Definition OptionName_code (n : OptionName) : nat :=
  match n with
  | OptionLimitedNum => 0
  | OptionMarker => 1
  | OptionRetryTimes => 2
  | OptionEncodingType => 3
  | OptionMeta => 4
  end%nat.

Definition OptionName_decode (c : nat) : option OptionName :=
  match c with
  | 0 => Some OptionLimitedNum
  | 1 => Some OptionMarker
  | 2 => Some OptionRetryTimes
  | 3 => Some OptionEncodingType
  | 4 => Some OptionMeta
  | _ => None
  end%nat.

Global Instance OptionName_countable : Countable OptionName.
Proof.
  apply (inj_countable OptionName_code OptionName_decode).
  intros []; reflexivity.
Defined.

(** A parsed option value: [*int64], [*string] or [*bool] in the Go map. *)
Inductive OptionValue : Type :=
  | IntValue (n : Z)
  | StringValue (s : string)
  | BoolValue (b : bool).

(** [OptionMapType], a [map[string]interface{}]. *)
Abbreviation OptionMapType := (gmap OptionName OptionValue).

(** The part of the embedded [Command] struct the handlers read. *)
Record Command : Type := mkCommand {
  args : list string;
  options : OptionMapType;
}.

(** [CloudURL]: only the two fields the handlers read. *)
Record CloudURL : Type := mkCloudURL {
  bucket : string;
  object : string;
}.

(** ** SDK values *)

(** [oss.Option] values built by the handlers, plus the header options that
    [getOSSOptions] derives from [--meta]. *)
Inductive oss_Option : Type :=
  | Prefix (value : string)
  | Marker (value : string)
  | Meta (key value : string)
  | Progress.

(** [oss.Client], an opaque handle. *)
Inductive Client : Type := mkClient (bucketName : string).

(** [oss.CloudBoxProperties]. *)
Record CloudBoxProperties : Type := mkCloudBox {
  Id : string;
  Name : string;
  Owner : string;
  Region : string;
  ControlEndpoint : string;
  DataEndpoint : string;
}.

(** [oss.ListCloudBoxResult], restricted to the fields [RunCommand] reads. *)
Record ListCloudBoxResult : Type := mkListCloudBoxResult {
  lcr_Prefix : string;
  NextMarker : string;
  IsTruncated : bool;
  CloudBoxes : list CloudBoxProperties;
}.

(** ** Listing cloud boxes: [lib/lcb.go] *)

Module Lcb.

(** What the handler does to the outside world, in program order.  A
    listing request is logged together with the answer it got. *)
Inductive Event : Type :=
  | EvOssClient (bucketName : string)
  | EvListCloudBoxes (opts : list oss_Option)
                     (lbr : ListCloudBoxResult) (err : error)
  | EvPrintHeader
  | EvPrintBox (box : CloudBoxProperties).

Abbreviation Trace := (list Event).

(** The collaborators of the handler.  [GetInt], [GetString],
    [CloudURLFromString], [getRawMarker] and [ossClient] belong to the
    shared command layer, [ListCloudBoxes] to the SDK, [Error] is the
    [Error()] method of whatever error values those return.  The service
    may answer a request differently each time: its answer is a function
    of everything that has happened so far. *)
Record Host : Type := mkHost {
  GetInt : OptionName → OptionMapType → Z * error;
  GetString : OptionName → OptionMapType → string * error;
  CloudURLFromString : string → string → CloudURL * error;
  getRawMarker : Command → string → string * error;
  ossClient : Command → string → Client * error;
  ListCloudBoxes : Trace → Client → list oss_Option →
                   ListCloudBoxResult * error;
  Error : error → string;
}.

(** A run either returns, or is cut off by the step budget of the model;
    in both cases the trace so far is known. *)
Inductive Outcome (A : Type) : Type :=
  | Done (a : A) (t : Trace)
  | OutOfFuel (t : Trace).
Arguments Done {A} a t.
Arguments OutOfFuel {A} t.

Definition trace_of {A} (o : Outcome A) : Trace :=
  match o with Done _ t => t | OutOfFuel t => t end.

Section Handler.
Context (host : Host) (lc : Command).

(** [for i := 1; ; i++] of [ossListCloudBoxesRetry], entered with the
    counter at [i]. *)
Fixpoint ossListCloudBoxesRetry_loop (fuel : nat) (retryTimes : Z)
    (client : Client) (opts : list oss_Option) (i : Z) (t : Trace)
    : Outcome (ListCloudBoxResult * error) :=
  match fuel with
  | O => OutOfFuel t
  | S fuel' =>
      let '(lbr, err) := ListCloudBoxes host t client opts in
      let t' := t ++ [EvListCloudBoxes opts lbr err] in
      if is_nil err || (retryTimes <=? i)
      then Done (lbr, err) t'
      else ossListCloudBoxesRetry_loop fuel' retryTimes client opts
             (int64_add i 1) t'
  end.

Definition ossListCloudBoxesRetry (fuel : nat) (client : Client)
    (opts : list oss_Option) (t : Trace)
    : Outcome (ListCloudBoxResult * error) :=
  let '(retryTimes, _) := GetInt host OptionRetryTimes (options lc) in
  ossListCloudBoxesRetry_loop fuel retryTimes client opts 1 t.

(** [for _, box := range lcr.CloudBoxes], threading [num] and the
    trace. *)
Fixpoint print_boxes (limitedNum : Z) (boxes : list CloudBoxProperties)
    (num : Z) (t : Trace) : Z * Trace :=
  match boxes with
  | [] => (num, t)
  | box :: rest =>
      if (0 <=? limitedNum) && (limitedNum <=? num)
      then (num, t)
      else print_boxes limitedNum rest (int64_add num 1)
             (t ++ [EvPrintBox box])
  end.

(** [for limitedNum < 0 || num < limitedNum] of [RunCommand]. *)
Fixpoint list_loop (fuel : nat) (limitedNum : Z) (client : Client)
    (num : Z) (pre marker : oss_Option) (t : Trace) : Outcome error :=
  if (limitedNum <? 0) || (num <? limitedNum) then
    match fuel with
    | O => OutOfFuel t
    | S fuel' =>
        match ossListCloudBoxesRetry (S fuel') client [pre; marker] t with
        | OutOfFuel t1 => OutOfFuel t1
        | Done (lcr, err) t1 =>
            if negb (is_nil err) then Done err t1
            else
              let pre := Prefix (lcr_Prefix lcr) in
              let marker := Marker (NextMarker lcr) in
              let t2 :=
                if (num =? 0) && (0 <? len (CloudBoxes lcr))
                then t1 ++ [EvPrintHeader] else t1 in
              let '(num, t3) :=
                print_boxes limitedNum (CloudBoxes lcr) num t2 in
              if negb (IsTruncated lcr) then Done nil t3
              else list_loop fuel' limitedNum client num pre marker t3
        end
    end
  else Done nil t.

(** [RunCommand].  The prefix is the bucket part of the first argument,
    when there is one; the marker is checked by [getRawMarker], whose
    result is bound to a variable of its own. *)
Definition RunCommand (fuel : nat) : Outcome error :=
  let prefix_err :=
    match args lc with
    | arg0 :: _ =>
        let '(cloudURL, err) := CloudURLFromString host arg0 "" in
        if negb (is_nil err) then ("", err) else (bucket cloudURL, nil)
    | [] => ("", nil)
    end in
  let '(prefix, err) := prefix_err in
  if negb (is_nil err) then Done err [] else
  let '(limitedNum, _) := GetInt host OptionLimitedNum (options lc) in
  let '(vmarker, _) := GetString host OptionMarker (options lc) in
  let '(vmarker', err) := getRawMarker host lc vmarker in
  if negb (is_nil err) then
    Done (errorString ("invalid marker: " +:+ vmarker' +:+
                       ", marker is not url encoded, " +:+
                       Error host err)) []
  else
  let num := 0 in
  let '(client, err) := ossClient host lc "" in
  let t := [EvOssClient ""] in
  if negb (is_nil err) then Done err t else
  let pre := Prefix prefix in
  let marker := Marker vmarker in
  list_loop fuel limitedNum client num pre marker t.

End Handler.

(** *** Reading a trace *)

Definition is_request (e : Event) : bool :=
  match e with EvListCloudBoxes _ _ _ => true | _ => false end.

Definition is_row (e : Event) : bool :=
  match e with EvPrintBox _ => true | _ => false end.

(** The listing requests of a trace, in order. *)
Definition requests (t : Trace) : Trace := filter is_request t.

(** The item rows of a trace, in order. *)
Definition rows (t : Trace) : Trace := filter is_row t.

(** The options of a request event. *)
Definition request_options (e : Event) : list oss_Option :=
  match e with EvListCloudBoxes opts _ _ => opts | _ => [] end.

(** A request that was answered without error by a page whose truncation
    flag is false. *)
Definition final_page (e : Event) : Prop :=
  match e with
  | EvListCloudBoxes _ lbr nil => IsTruncated lbr = false
  | _ => False
  end.

(** *** Vocabulary of the statements *)

Section Vocabulary.
Context (host : Host) (lc : Command).

(** The events of [k] consecutive attempts at one page, all with the
    options [opts], the first one made after the history [t]. *)
Fixpoint attempt_events (client : Client) (opts : list oss_Option)
    (t : Trace) (k : nat) : Trace :=
  match k with
  | O => []
  | S k' =>
      let '(lbr, err) := ListCloudBoxes host t client opts in
      let e := EvListCloudBoxes opts lbr err in
      e :: attempt_events client opts (t ++ [e]) k'
  end.

(** What the service answers to attempt number [n] (counted from 0). *)
Definition attempt (client : Client) (opts : list oss_Option)
    (t : Trace) (n : nat) : ListCloudBoxResult * error :=
  ListCloudBoxes host (t ++ attempt_events client opts t n) client opts.

(** Attempt number [k] is answered with an error. *)
Definition attempt_fails (client : Client) (opts : list oss_Option)
    (t : Trace) (k : nat) : Prop :=
  is_nil (snd (attempt client opts t k)) = false.

(** The event of the first attempt made after [t]. *)
Definition attempt_event (client : Client) (opts : list oss_Option)
    (t : Trace) : Event :=
  EvListCloudBoxes opts (fst (attempt client opts t 0))
                   (snd (attempt client opts t 0)).

Definition retryTimes_of : Z :=
  fst (GetInt host OptionRetryTimes (options lc)).

Definition limitedNum_of : Z :=
  fst (GetInt host OptionLimitedNum (options lc)).

(** The value of [--marker] as given on the command line. *)
Definition vmarker_of : string :=
  fst (GetString host OptionMarker (options lc)).

(** The optional bucket argument is absent or parses. *)
Definition argument_parses : Prop :=
  match args lc with
  | arg0 :: _ => snd (CloudURLFromString host arg0 "") = nil
  | [] => True
  end.

Definition prefix_of : string :=
  match args lc with
  | arg0 :: _ => bucket (fst (CloudURLFromString host arg0 ""))
  | [] => ""
  end.

(** The marker passes [getRawMarker]. *)
Definition marker_decodes : Prop :=
  snd (getRawMarker host lc vmarker_of) = nil.

(** Everything before the listing loop succeeds. *)
Definition starts_listing : Prop :=
  argument_parses ∧ marker_decodes ∧ snd (ossClient host lc "") = nil.


End Vocabulary.


(** *** Sample hosts *)

Definition lookup_int (name : OptionName) (m : OptionMapType) : Z * error :=
  match m !! name with
  | Some (IntValue n) => (n, nil)
  | _ => (0, errorString "option value is not found")
  end.

Definition lookup_string (name : OptionName) (m : OptionMapType)
    : string * error :=
  match m !! name with
  | Some (StringValue v) => (v, nil)
  | _ => ("", errorString "option value is not found")
  end.

Fixpoint split_slash (s : string) : string * string :=
  match s with
  | EmptyString => (EmptyString, EmptyString)
  | String "/" rest => (EmptyString, rest)
  | String c rest =>
      let '(b, o) := split_slash rest in (String c b, o)
  end.

(** A cloud URL reader: an optional [oss://], the bucket up to the first
    slash, the object key after it; a key without a bucket is refused. *)
Definition sample_CloudURLFromString (s : string) (_ : string)
    : CloudURL * error :=
  let body :=
    if String.prefix "oss://" s
    then String.substring 6 (String.length s - 6) s else s in
  let '(b, o) := split_slash body in
  if negb (String.eqb o "") && String.eqb b ""
  then (mkCloudURL "" "", errorString "invalid cloud url, miss bucket")
  else (mkCloudURL b o, nil).

Definition unhex (c : ascii) : option N :=
  let n := N_of_ascii c in
  if (48 <=? n)%N && (n <=? 57)%N then Some (n - 48)%N
  else if (97 <=? n)%N && (n <=? 102)%N then Some (n - 87)%N
  else if (65 <=? n)%N && (n <=? 70)%N then Some (n - 55)%N
  else None.

(** Percent decoding in the manner of [url.QueryUnescape]. *)
Fixpoint unescape (s : string) : option string :=
  match s with
  | EmptyString => Some EmptyString
  | String "%" (String a (String b rest)) =>
      match unhex a, unhex b with
      | Some h, Some l =>
          String (ascii_of_N (16 * h + l)) <$> unescape rest
      | _, _ => None
      end
  | String "%" _ => None
  | String "+" rest => String " " <$> unescape rest
  | String c rest => String c <$> unescape rest
  end.

Definition sample_getRawMarker (_ : Command) (str : string)
    : string * error :=
  match unescape str with
  | Some raw => (raw, nil)
  | None => ("", errorString "invalid URL escape")
  end.

Definition sample_Error (e : error) : string :=
  match e with errorString m => m | _ => "" end.

(** A service that answers request number [k] of a run with entry [k] of
    a script, and with [fallback] once the script is used up. *)
Definition scripted (script : list (ListCloudBoxResult * error))
    (fallback : ListCloudBoxResult * error)
    (t : Trace) (_ : Client) (_ : list oss_Option)
    : ListCloudBoxResult * error :=
  default fallback (script !! length (requests t)).

Definition empty_page : ListCloudBoxResult :=
  mkListCloudBoxResult "" "" false [].

Definition timeout_error : error := errorString "i/o timeout".

Definition sample_host_with (script : list (ListCloudBoxResult * error))
    (fallback : ListCloudBoxResult * error) : Host :=
  {| GetInt := lookup_int;
     GetString := lookup_string;
     CloudURLFromString := sample_CloudURLFromString;
     getRawMarker := sample_getRawMarker;
     ossClient := λ _ b, (mkClient b, nil);
     ListCloudBoxes := scripted script fallback;
     Error := sample_Error |}.

Definition sample_host (script : list (ListCloudBoxResult * error)) : Host :=
  sample_host_with script (empty_page, nil).

(** A service that is down: every request fails. *)
Definition down_host : Host :=
  sample_host_with [] (empty_page, timeout_error).

Definition box (id : string) : CloudBoxProperties :=
  mkCloudBox id "name" "owner" "region" "control" "data".

Definition page1 : ListCloudBoxResult :=
  mkListCloudBoxResult "cb" "m1" true [box "cb-1"; box "cb-2"].

Definition page2 : ListCloudBoxResult :=
  mkListCloudBoxResult "cb" "" false [box "cb-3"].

Definition sample_command (limit retry : Z) (marker : string) : Command :=
  {| args := ["oss://cb"];
     options := {[ OptionLimitedNum := IntValue limit;
                   OptionRetryTimes := IntValue retry;
                   OptionMarker := StringValue marker ]} |}.

(** A service that times out twice before it answers. *)
Definition flaky_host : Host :=
  sample_host [(page1, timeout_error); (page1, timeout_error);
               (page1, nil)].

(** A listing of two pages. *)
Definition two_page_host : Host :=
  sample_host (map (λ p, (p, nil)) [page1; page2]).

(** A service whose first answer is a final page. *)
Definition final_first_host : Host :=
  sample_host [(page2, nil); (page1, nil)].

Definition sample_client : Client := mkClient "".

Definition sample_cursor : list oss_Option := [Prefix "cb"; Marker ""].

End Lcb.

(** ** [strconv.ParseInt] in base 10 with [bitSize] 64 *)

Module strconv.

Definition MaxUint64 : Z := 18446744073709551615.

Definition syntaxError (fn str : string) : error :=
  NumError fn str ErrSyntax.

Definition rangeError (fn str : string) : error :=
  NumError fn str ErrRange.

(** The value of a decimal digit; anything else is not a digit of base
    10. *)
Definition digit (c : ascii) : option Z :=
  let n := Z.of_N (N_of_ascii c) in
  if (48 <=? n) && (n <=? 57) then Some (n - 48) else None.

(** The digit loop of [ParseUint]: [n] is the value read so far.  The
    loop stops at the first character that is no digit, and at the first
    digit that takes the value out of [uint64]. *)
Fixpoint ParseUint_loop (s0 : string) (s : string) (n : Z) : Z * error :=
  match s with
  | EmptyString => (n, nil)
  | String c rest =>
      match digit c with
      | None => (0, syntaxError "ParseUint" s0)
      | Some d =>
          if MaxUint64 / 10 + 1 <=? n
          then (MaxUint64, rangeError "ParseUint" s0)
          else
            let n := n * 10 in
            let n1 := n + d in
            if MaxUint64 <? n1
            then (MaxUint64, rangeError "ParseUint" s0)
            else ParseUint_loop s0 rest n1
      end
  end.

Definition ParseUint (s : string) : Z * error :=
  match s with
  | EmptyString => (0, syntaxError "ParseUint" s)
  | _ => ParseUint_loop s s 0
  end.

Definition is_range_error (e : error) : bool :=
  match e with
  | NumError _ _ (errorString "value out of range") => true
  | _ => false
  end.

Definition ParseInt (s : string) : Z * error :=
  match s with
  | EmptyString => (0, syntaxError "ParseInt" s)
  | String c rest =>
      let s0 := s in
      let '(neg, s) :=
        if Ascii.eqb c "+" then (false, rest)
        else if Ascii.eqb c "-" then (true, rest)
        else (false, s) in
      let '(un, err) := ParseUint s in
      if negb (is_nil err) && negb (is_range_error err)
      then (0, syntaxError "ParseInt" s0)
      else
        let cutoff := 2 ^ 63 in
        if negb neg && (cutoff <=? un)
        then (cutoff - 1, rangeError "ParseInt" s0)
        else if neg && (cutoff <? un)
        then (- cutoff, rangeError "ParseInt" s0)
        else (if neg then - un else un, nil)
  end.

End strconv.

(** ** Appending a local file: [lib/append_file.go] *)

Module AppendFile.

(** [os.FileInfo], as far as [RunCommand] looks at it. *)
Record FileInfo : Type := mkFileInfo {
  IsDir : bool;
  Size : Z;
}.

(** [*oss.Bucket] and [*os.File], opaque handles. *)
Inductive Bucket : Type := mkBucket (bucketName : string).
Inductive File : Type := mkFile (name : string).

(** [http.Header], a [map[string][]string] under canonical keys. *)
Abbreviation Header := (gmap string (list string)).

(** [Header.Get] for a key that is already in canonical form: the first
    value stored under it, or the empty string. *)
Definition Get (h : Header) (key : string) : string :=
  match h !! key with
  | Some (v :: _) => v
  | _ => ""
  end.

(** What the handler does to the outside world, in program order. *)
Inductive Event : Type :=
  | EvStat (name : string)
  | EvOssClient (bucketName : string)
  | EvBucket (bucketName : string)
  | EvIsObjectExist (objectKey : string)
  | EvGetObjectMeta (objectKey : string)
  | EvOpenFile (name : string)
  | EvAppendObject (objectKey : string) (file : File) (position : Z)
                   (opts : list oss_Option)
  | EvFileClose (file : File)
  | EvPrintSummary (fileSize newPosition : Z).

Abbreviation Trace := (list Event).

(** The collaborators of the handler: the shared command layer
    ([GetString], [GetCloudUrl], [ossClient], [parseHeaders],
    [getOSSOptions] applied to the header option table), the policy
    constant [MaxAppendObjectSize], the local file system ([os.Stat],
    [os.OpenFile]) and the SDK ([Bucket], [IsObjectExist],
    [GetObjectMeta], [AppendObject]).  Each is consulted at most once in a
    run. *)
Record Host : Type := mkHost {
  GetString : OptionName → OptionMapType → string * error;
  GetCloudUrl : string → string → CloudURL * error;
  MaxAppendObjectSize : Z;
  os_Stat : string → FileInfo * error;
  ossClient : Command → string → Client * error;
  client_Bucket : Client → string → Bucket * error;
  IsObjectExist : Bucket → string → bool * error;
  GetObjectMeta : Bucket → string → Header * error;
  os_OpenFile : string → File * error;
  parseHeaders : Command → string → bool → gmap string string * error;
  getOSSOptions : gmap string string → list oss_Option * error;
  AppendObject : Bucket → string → File → Z → list oss_Option → Z * error;
}.

(** [appendFileOptionType]. *)
Record appendFileOptionType : Type := mkAfOption {
  bucketName : string;
  objectName : string;
  encodingType : string;
  fileName : string;
  fileSize : Z;
  ossMeta : string;
}.

(** A call returns an error value, or panics (indexing [args] out of
    range). *)
Inductive Result : Type :=
  | Returns (err : error)
  | Panics.

Definition string_nonempty (s : string) : bool :=
  match s with EmptyString => false | _ => true end.

Section Handler.
Context (host : Host) (afc : Command).

Definition AppendFromFile (afOption : appendFileOptionType)
    (bucket : Bucket) (position : Z) (t : Trace) : error * Trace :=
  let '(file, err) := os_OpenFile host (fileName afOption) in
  let t := t ++ [EvOpenFile (fileName afOption)] in
  if negb (is_nil err) then (err, t) else
  let opts_err :=
    if string_nonempty (ossMeta afOption) then
      let '(metas, err) :=
        parseHeaders host afc (ossMeta afOption) false in
      if negb (is_nil err) then ([], err) else
      getOSSOptions host metas
    else ([], nil) in
  let '(opts, err) := opts_err in
  if negb (is_nil err) then (err, t ++ [EvFileClose file]) else
  let opts := opts ++ [Progress] in
  let '(newPosition, err) :=
    AppendObject host bucket (objectName afOption) file position opts in
  let t := t ++ [EvAppendObject (objectName afOption) file position opts]
  in
  if negb (is_nil err) then (err, t ++ [EvFileClose file])
  else
    (nil, t ++ [EvPrintSummary (fileSize afOption) newPosition;
                EvFileClose file]).

Definition RunCommand : Result * Trace :=
  let '(encodingType, _) :=
    GetString host OptionEncodingType (options afc) in
  let '(ossMeta, _) := GetString host OptionMeta (options afc) in
  match args afc !! 1%nat with
  | None => (Panics, [])
  | Some arg1 =>
  let '(srcBucketUrL, err) := GetCloudUrl host arg1 encodingType in
  if negb (is_nil err) then (Returns err, []) else
  if negb (string_nonempty (object srcBucketUrL))
  then (Returns (errorString "object key is empty"), []) else
  let bucketName := bucket srcBucketUrL in
  let objectName := object srcBucketUrL in
  match args afc !! 0%nat with
  | None => (Panics, [])
  | Some fileName =>
  let '(stat, err) := os_Stat host fileName in
  let t := [EvStat fileName] in
  if negb (is_nil err) then (Returns err, t) else
  if IsDir stat
  then (Returns (errorString (fileName +:+ " is dir")), t) else
  if MaxAppendObjectSize host <? Size stat
  then (Returns (errorString
                   ("locafile:" +:+ fileName +:+ " is bigger than " +:+
                    pretty (MaxAppendObjectSize host) +:+
                    ", it is not support by append")), t) else
  let afOption :=
    mkAfOption bucketName objectName encodingType fileName (Size stat)
               ossMeta in
  let '(client, err) := ossClient host afc bucketName in
  let t := t ++ [EvOssClient bucketName] in
  if negb (is_nil err) then (Returns err, t) else
  let '(bucket, err) := client_Bucket host client bucketName in
  let t := t ++ [EvBucket bucketName] in
  if negb (is_nil err) then (Returns err, t) else
  let '(isExist, err) := IsObjectExist host bucket objectName in
  let t := t ++ [EvIsObjectExist objectName] in
  if negb (is_nil err) then (Returns err, t) else
  if isExist && string_nonempty ossMeta
  then (Returns (errorString
          "setting meta on existing append object is not supported"), t)
  else
  let position := 0 in
  let pos_err :=
    if isExist then
      let '(props, err) := GetObjectMeta host bucket objectName in
      if negb (is_nil err) then (position, err, true) else
      let '(position, err) :=
        strconv.ParseInt (Get props "Content-Length") in
      (position, err, true)
    else (position, nil, false) in
  let '(position, err, asked) := pos_err in
  let t := if asked then t ++ [EvGetObjectMeta objectName] else t in
  if negb (is_nil err) then (Returns err, t) else
  let '(err, t) := AppendFromFile afOption bucket position t in
  (Returns err, t)
  end
  end.

End Handler.

(** *** Reading a trace *)

(** Calls that go to the storage service. *)
Definition is_network_call (e : Event) : bool :=
  match e with
  | EvIsObjectExist _ | EvGetObjectMeta _ | EvAppendObject _ _ _ _ => true
  | _ => false
  end.

Definition is_append (e : Event) : bool :=
  match e with EvAppendObject _ _ _ _ => true | _ => false end.

Definition is_open (e : Event) : bool :=
  match e with EvOpenFile _ => true | _ => false end.

Definition is_error (r : Result) : bool :=
  match r with Returns nil => false | Returns _ => true | Panics => false end.

(** *** Vocabulary of the statements *)

Section Vocabulary.
Context (host : Host) (afc : Command).

Definition arg (n : nat) : string := default "" (args afc !! n).

Definition encodingType_of : string :=
  fst (GetString host OptionEncodingType (options afc)).

(** The value of [--meta]. *)
Definition ossMeta_of : string :=
  fst (GetString host OptionMeta (options afc)).

Definition url_of : CloudURL :=
  fst (GetCloudUrl host (arg 1) encodingType_of).

Definition stat_of : FileInfo := fst (os_Stat host (arg 0)).

Definition client_of : Client :=
  fst (ossClient host afc (bucket url_of)).

Definition bucket_of : Bucket :=
  fst (client_Bucket host client_of (bucket url_of)).

(** The command was given its two arguments ([minArgc] and [maxArgc]
    are both 2). *)
Definition two_args : Prop := length (args afc) = 2%nat.

(** Every step before the existence check succeeds. *)
Definition validates : Prop :=
  two_args
  ∧ snd (GetCloudUrl host (arg 1) encodingType_of) = nil
  ∧ object url_of ≠ ""
  ∧ snd (os_Stat host (arg 0)) = nil
  ∧ IsDir stat_of = false
  ∧ Size stat_of <= MaxAppendObjectSize host
  ∧ snd (ossClient host afc (bucket url_of)) = nil
  ∧ snd (client_Bucket host client_of (bucket url_of)) = nil.

(** The service reports that the remote object exists. *)
Definition object_exists : Prop :=
  IsObjectExist host bucket_of (object url_of) = (true, nil).

(** The service reports that there is no such object. *)
Definition object_missing : Prop :=
  IsObjectExist host bucket_of (object url_of) = (false, nil).

Definition meta_supplied : Prop := ossMeta_of ≠ "".

(** The length the service reports for the object, read the way
    [RunCommand] reads it. *)
Definition reported_length : Z * error :=
  strconv.ParseInt
    (Get (fst (GetObjectMeta host bucket_of (object url_of)))
         "Content-Length").

(** The position the upload has to start at. *)
Definition start_position : Z :=
  if fst (IsObjectExist host bucket_of (object url_of))
  then fst reported_length else 0.

(** The events of the validation phase, up to the existence check. *)
Definition validation_trace : Trace :=
  [EvStat (arg 0); EvOssClient (bucket url_of);
   EvBucket (bucket url_of); EvIsObjectExist (object url_of)].

(** The command fails with an error, and no call to the service shows
    in its trace. *)
Definition fails_before_any_network_call : Prop :=
  is_error (fst (RunCommand host afc)) = true
  ∧ Forall (λ e, is_network_call e = false) (snd (RunCommand host afc)).

End Vocabulary.

(** *** Sample hosts *)

Definition split_colon : string → option (string * string) :=
  fix go (s : string) : option (string * string) :=
    match s with
    | EmptyString => None
    | String ":" rest => Some (EmptyString, rest)
    | String c rest =>
        match go rest with
        | Some (k, v) => Some (String c k, v)
        | None => None
        end
    end.

Definition sample_parseHeaders (_ : Command) (s : string) (_ : bool)
    : gmap string string * error :=
  match split_colon s with
  | Some (k, v) => ({[ k := v ]}, nil)
  | None => (∅, errorString "invalid meta")
  end.

(** A host over a local directory [fs] and a remote bucket [store] that
    maps object keys to their headers. *)
Definition sample_host (fs : gmap string FileInfo)
    (store : gmap string (gmap string (list string))) : Host :=
  {| GetString := Lcb.lookup_string;
     GetCloudUrl := Lcb.sample_CloudURLFromString;
     MaxAppendObjectSize := 5368709120;
     os_Stat := λ name,
       match fs !! name with
       | Some info => (info, nil)
       | None => (mkFileInfo false 0,
                  errorString "no such file or directory")
       end;
     ossClient := λ _ b, (mkClient b, nil);
     client_Bucket := λ _ b, (mkBucket b, nil);
     IsObjectExist := λ _ key, (bool_decide (is_Some (store !! key)), nil);
     GetObjectMeta := λ _ key,
       match store !! key with
       | Some h => (h, nil)
       | None => (∅, errorString "NoSuchKey")
       end;
     os_OpenFile := λ name,
       match fs !! name with
       | Some _ => (mkFile name, nil)
       | None => (mkFile name, errorString "no such file or directory")
       end;
     parseHeaders := sample_parseHeaders;
     getOSSOptions := λ m,
       ((λ kv, Meta (fst kv) (snd kv)) <$> map_to_list m, nil);
     AppendObject := λ _ key file position _,
       match file with
       | mkFile name =>
           (position + Size (default (mkFileInfo false 0) (fs !! name)),
            nil)
       end |}.

Definition sample_fs : gmap string FileInfo :=
  {[ "log.txt" := mkFileInfo false 300;
     "huge.bin" := mkFileInfo false 6000000000;
     "dir" := mkFileInfo true 4096 ]}.

Definition sample_store : gmap string (gmap string (list string)) :=
  {[ "app.log" := {[ "Content-Length" := ["1024"] ]} ]}.

Definition sample_command (file url meta : string) : Command :=
  {| args := [file; url];
     options := {[ OptionMeta := StringValue meta ]} |}.

Definition local_host : Host := sample_host sample_fs sample_store.

Definition append_existing : Command :=
  sample_command "log.txt" "oss://b/app.log" "".

Definition append_existing_with_meta : Command :=
  sample_command "log.txt" "oss://b/app.log" "X-Oss-Meta-Author:chanju".

Definition append_new_with_meta : Command :=
  sample_command "log.txt" "oss://b/new.log" "X-Oss-Meta-Author:chanju".

Definition append_huge : Command :=
  sample_command "huge.bin" "oss://b/app.log" "".

(** A bucket whose object carries no [Content-Length] header. *)
Definition headless_host : Host :=
  sample_host sample_fs {[ "app.log" := {[ "ETag" := ["abc"] ]} ]}.

End AppendFile.

(** ** The marker check *)

Module LcbMarker.
Import Lcb.






End LcbMarker.

(** ** What a listing run shows *)

Module LcbOutput.
Import Lcb.

Definition is_header (e : Event) : bool :=
  match e with EvPrintHeader => true | _ => false end.

(** Everything the run wrote to stdout, in order. *)
Definition lines (t : Trace) : Trace :=
  filter (λ e, is_header e || is_row e) t.

(** The cloud boxes of one event: those of the page, for a request that
    was answered without error. *)
Definition served_by (e : Event) : list CloudBoxProperties :=
  match e with
  | EvListCloudBoxes _ lbr nil => CloudBoxes lbr
  | _ => []
  end.

(** The cloud boxes the service handed over during a run, in order. *)
Definition served (t : Trace) : list CloudBoxProperties :=
  concat (map served_by t).

(** The cursor a request has to carry when it follows the request [e]:
    the one the page returned, or the same one again after a failure. *)
Definition next_cursor (e : Event) : list oss_Option :=
  match e with
  | EvListCloudBoxes _ lbr nil =>
      [Prefix (lcr_Prefix lbr); Marker (NextMarker lbr)]
  | EvListCloudBoxes opts _ _ => opts
  | _ => []
  end.

(** What stdout has to hold for the rows [r]: nothing when there are
    none, else the header line followed by the rows. *)
Definition expected_lines (r : Trace) : Trace :=
  match r with
  | [] => []
  | _ => EvPrintHeader :: r
  end.

(** A service with one failure between the two pages of a listing. *)
Definition bumpy_host : Host :=
  sample_host [(page1, nil); (empty_page, timeout_error); (page2, nil)].

End LcbOutput.

(** ** What an append run shows *)

Module AppendOutput.
Import AppendFile.

Definition is_stat (e : Event) : bool :=
  match e with EvStat _ => true | _ => false end.

Definition is_close (e : Event) : bool :=
  match e with EvFileClose _ => true | _ => false end.

Definition is_summary (e : Event) : bool :=
  match e with EvPrintSummary _ _ => true | _ => false end.

(** The calls to the storage service in a run, in order. *)
Definition service_calls (t : Trace) : Trace :=
  List.filter is_network_call t.

Section Vocabulary.
Context (host : Host) (afc : Command).

(** The checks that need nothing but the command line and [os.Stat]. *)
Definition local_checks_pass : Prop :=
  snd (GetCloudUrl host (arg afc 1) (encodingType_of host afc)) = nil
  ∧ object (url_of host afc) ≠ ""
  ∧ snd (os_Stat host (arg afc 0)) = nil
  ∧ IsDir (stat_of host afc) = false
  ∧ Size (stat_of host afc) <= MaxAppendObjectSize host.

(** The options of the append call: those made from [--meta], when it is
    given, and the progress listener. *)
Definition append_options : list oss_Option :=
  (if string_nonempty (ossMeta_of host afc)
   then fst (getOSSOptions host
               (fst (parseHeaders host afc (ossMeta_of host afc) false)))
   else [])
  ++ [Progress].

(** The handle and the error of opening the local file. *)
Definition opened : File * error := os_OpenFile host (arg afc 0).

End Vocabulary.

End AppendOutput.

(** ** The progress listener of [lib/append_file.go] *)

Module Progress.

(** [oss.ProgressEventType]. *)
Inductive ProgressEventType : Type :=
  | TransferStartedEvent
  | TransferDataEvent
  | TransferCompletedEvent
  | TransferFailedEvent.

(** [oss.ProgressEvent], as far as the listener reads it. *)
Record ProgressEvent : Type := mkProgressEvent {
  ConsumedBytes : Z;
  TotalBytes : Z;
  EventType : ProgressEventType;
}.

(** [AppendProgressListener]. *)
Record AppendProgressListener : Type := mkListener {
  lastMs : Z;
  lastSize : Z;
  currSize : Z;
}.

Definition int64_sub (a b : Z) : Z := wrap64 (a - b).

(** [t.UnixNano() / 1000 / 1000]; Go's integer division truncates. *)
Definition UnixMilli (nano : Z) : Z := Z.quot (Z.quot nano 1000) 1000.

(** The status line.  Its two [float64] quotients are kept as their
    operands: the rate is [rate_bytes * 100 / rate_total], the speed
    [speed_bytes / speed_ms]. *)
Record StatusLine : Type := mkStatusLine {
  consumed : Z;
  rate_bytes : Z;
  rate_total : Z;
  speed_bytes : Z;
  speed_ms : Z;
}.

Definition is_data (ty : ProgressEventType) : bool :=
  match ty with TransferDataEvent => true | _ => false end.

Definition is_completed (ty : ProgressEventType) : bool :=
  match ty with TransferCompletedEvent => true | _ => false end.

(** [ProgressChanged], with the reading of [time.Now()] (in nanoseconds)
    that the call makes when the event is a data or a completion event. *)
Definition ProgressChanged (l : AppendProgressListener)
    (event : ProgressEvent) (now : Z)
    : AppendProgressListener * list StatusLine :=
  if is_data (EventType event) || is_completed (EventType event) then
    if lastMs l =? 0 then
      ({| lastMs := UnixMilli now;
          lastSize := currSize l;
          currSize := ConsumedBytes event |}, [])
    else
      let cost := int64_sub (UnixMilli now) (lastMs l) in
      if (1000 <? cost) || is_completed (EventType event) then
        let l' := {| lastMs := UnixMilli now;
                     lastSize := currSize l;
                     currSize := ConsumedBytes event |} in
        (l', [{| consumed := ConsumedBytes event;
                 rate_bytes := currSize l';
                 rate_total := TotalBytes event;
                 speed_bytes := int64_sub (currSize l') (lastSize l');
                 speed_ms := cost |}])
      else (l, [])
  else (l, []).

(** *** A transfer as the listener sees it *)

(** A status line together with the time and the kind of the event that
    caused it. *)
Record Report : Type := mkReport {
  at_ms : Z;
  cause : ProgressEventType;
  line : StatusLine;
}.

(** The listener of [AppendFromFile] is a fresh one. *)
Definition fresh : AppendProgressListener := mkListener 0 0 0.

(** The calls of one transfer, each with its clock reading, made on the
    same listener one after the other. *)
Fixpoint feed (l : AppendProgressListener)
    (calls : list (ProgressEvent * Z))
    : AppendProgressListener * list Report :=
  match calls with
  | [] => (l, [])
  | (event, now) :: rest =>
      let '(l1, out) := ProgressChanged l event now in
      let '(l2, reports) := feed l1 rest in
      (l2, map (mkReport (UnixMilli now) (EventType event)) out ++ reports)
  end.

(** The events the listener reacts to. *)
Definition relevant (call : ProgressEvent * Z) : bool :=
  is_data (EventType (fst call)) || is_completed (EventType (fst call)).

(** A clock reading of the present era, as an [int64] count of
    nanoseconds. *)
Definition clock_ok (call : ProgressEvent * Z) : Prop :=
  1000000 <= snd call <= MaxInt64.

Definition data (consumed_bytes ms : Z) : ProgressEvent * Z :=
  (mkProgressEvent consumed_bytes 4096 TransferDataEvent, ms * 1000000).

Definition completed (consumed_bytes ms : Z) : ProgressEvent * Z :=
  (mkProgressEvent consumed_bytes 4096 TransferCompletedEvent,
   ms * 1000000).

(** A transfer of 4096 bytes that takes three and a half seconds. *)
Definition sample_transfer : list (ProgressEvent * Z) :=
  [(mkProgressEvent 0 4096 TransferStartedEvent, 5000 * 1000000);
   data 512 5000; data 1024 5400; data 2048 6200; data 3072 7000;
   data 4096 8300; completed 4096 8500].

End Progress.

(** * Properties *)

(** ** Integers *)

Lemma int64_add_1 (a : Z) :
  MinInt64 <= a → a < MaxInt64 → int64_add a 1 = a + 1.
Proof.
  unfold int64_add, wrap64, MinInt64, MaxInt64. intros Hlo Hhi.
  change (2 ^ 63) with 9223372036854775808.
  change (2 ^ 64) with 18446744073709551616.
  rewrite Z.mod_small; lia.
Qed.

Lemma is_nil_true (e : error) : is_nil e = true ↔ e = nil.
Proof. destruct e; simpl; split; congruence. Qed.

Lemma is_nil_false (e : error) : is_nil e = false ↔ e ≠ nil.
Proof. destruct e; simpl; split; congruence. Qed.

(** ** The retry loop of [lcb] *)

Module LcbSpec.
Import Lcb.

Section Retry.
Context (host : Host) (lc : Command).
Context (client : Client) (opts : list oss_Option).

Abbreviation events := (attempt_events host client opts).
Abbreviation answer := (attempt host client opts).
Abbreviation loop := (ossListCloudBoxesRetry_loop host).

Abbreviation fails := (attempt_fails host client opts).
Abbreviation first_event := (attempt_event host client opts).

Lemma answer_0 t : answer t 0 = ListCloudBoxes host t client opts.
Proof. unfold attempt. simpl. by rewrite app_nil_r. Qed.

Lemma events_S t k :
  events t (S k) = first_event t :: events (t ++ [first_event t]) k.
Proof.
  unfold attempt_event. rewrite answer_0. simpl.
  by destruct (ListCloudBoxes host t client opts).
Qed.

Lemma answer_S t k : answer t (S k) = answer (t ++ [first_event t]) k.
Proof.
  unfold attempt at 1 2. rewrite events_S.
  by rewrite <- app_assoc.
Qed.

Lemma events_length t k : length (events t k) = k.
Proof.
  revert t. induction k as [|k IH]; intros t; [done|].
  rewrite events_S. simpl. by rewrite IH.
Qed.

Lemma events_lookup t k j :
  (j < k)%nat →
  events t k !! j =
  Some (EvListCloudBoxes opts (fst (answer t j)) (snd (answer t j))).
Proof.
  revert t j. induction k as [|k IH]; intros t j Hj; [lia|].
  rewrite events_S. destruct j as [|j]; [done|].
  rewrite answer_S. simpl. apply IH. lia.
Qed.

Lemma events_requests t k : requests (events t k) = events t k.
Proof.
  revert t. induction k as [|k IH]; intros t; [done|].
  rewrite events_S. unfold requests in *.
  rewrite filter_cons. simpl. by rewrite IH.
Qed.

Lemma events_same_options t k :
  Forall (λ e, is_request e = true ∧ request_options e = opts)
         (events t k).
Proof.
  revert t. induction k as [|k IH]; intros t; [constructor|].
  rewrite events_S. constructor; [done|apply IH].
Qed.

(** [n] failing attempts that the counter lets through, followed by an
    attempt that succeeds or exhausts the counter: the loop makes
    exactly these [n + 1] attempts and returns the answer to the last
    one. *)
Lemma loop_run (rt : Z) (n : nat) :
  ∀ (fuel : nat) (i : Z) (t : Trace),
    (n < fuel)%nat →
    MinInt64 <= i → i + Z.of_nat n <= MaxInt64 →
    (∀ k, (k < n)%nat → fails t k) →
    (∀ k, (k < n)%nat → i + Z.of_nat k < rt) →
    is_nil (snd (answer t n)) = true ∨ rt <= i + Z.of_nat n →
    loop fuel rt client opts i t = Done (answer t n) (t ++ events t (S n)).
Proof.
  induction n as [|n IH]; intros fuel i t Hfuel Hlo Hhi Hfail Hcnt Hstop;
    destruct fuel as [|fuel]; try lia.
  - rewrite events_S. cbn [ossListCloudBoxesRetry_loop attempt_events].
    unfold attempt_event. rewrite answer_0 in *.
    destruct (ListCloudBoxes host t client opts) as [lbr err].
    simpl in Hstop. simpl.
    replace (is_nil err || (rt <=? i)) with true; [done|].
    symmetry. apply orb_true_iff.
    destruct Hstop as [->|Hrt]; [by left|right]. apply Z.leb_le. lia.
  - pose proof (Hfail 0%nat ltac:(lia)) as H0. unfold attempt_fails in H0.
    pose proof (Hcnt 0%nat ltac:(lia)) as Hc0.
    rewrite events_S, answer_S.
    specialize (IH fuel (i + 1) (t ++ [first_event t])).
    unfold attempt_event in *. rewrite answer_0 in *.
    cbn [ossListCloudBoxesRetry_loop].
    destruct (ListCloudBoxes host t client opts) as [lbr err] eqn:Hresp.
    simpl in H0. simpl fst in *. simpl snd in *. rewrite H0. simpl.
    replace (rt <=? i) with false by (symmetry; apply Z.leb_gt; lia).
    rewrite int64_add_1 by (unfold MaxInt64 in *; lia).
    rewrite IH; try lia.
    + by rewrite <- app_assoc.
    + intros k Hk. specialize (Hfail (S k) ltac:(lia)).
      unfold attempt_fails in *. rewrite answer_S in Hfail.
      unfold attempt_event in Hfail. by rewrite answer_0, Hresp in Hfail.
    + intros k Hk. specialize (Hcnt (S k) ltac:(lia)). lia.
    + rewrite answer_S in Hstop. unfold attempt_event in Hstop.
      rewrite answer_0, Hresp in Hstop. simpl in Hstop.
      destruct Hstop as [Hs|Hs]; [by left|right; lia].
Qed.

(** Whatever the fuel, the loop has made a run of attempts at the same
    options, all but possibly the last of them failing. *)
Lemma loop_trace (rt : Z) :
  ∀ (fuel : nat) (i : Z) (t : Trace),
    match loop fuel rt client opts i t with
    | Done r t' =>
        ∃ n, (n < fuel)%nat ∧ r = answer t n ∧
             t' = t ++ events t (S n) ∧
             ∀ k, (k < n)%nat → fails t k
    | OutOfFuel t' =>
        t' = t ++ events t fuel ∧ ∀ k, (k < fuel)%nat → fails t k
    end.
Proof.
  induction fuel as [|fuel IH]; intros i t.
  - simpl. split; [by rewrite app_nil_r|lia].
  - cbn [ossListCloudBoxesRetry_loop].
    destruct (ListCloudBoxes host t client opts) as [lbr err] eqn:Hresp.
    assert (He : first_event t = EvListCloudBoxes opts lbr err).
    { unfold attempt_event. by rewrite answer_0, Hresp. }
    destruct (is_nil err || (rt <=? i)) eqn:Hstop.
    + exists 0%nat. rewrite events_S, answer_0, Hresp, He.
      repeat split; [lia|lia].
    + apply orb_false_iff in Hstop as [Herr _].
      assert (H0 : fails t 0).
      { unfold attempt_fails. by rewrite answer_0, Hresp. }
      specialize (IH (int64_add i 1) (t ++ [EvListCloudBoxes opts lbr err])).
      rewrite <- He in *.
      destruct (loop fuel rt client opts (int64_add i 1)
                  (t ++ [first_event t])) as [r t'|t'].
      * destruct IH as (n & Hn & -> & -> & Hf).
        exists (S n). rewrite answer_S, (events_S t (S n)).
        repeat split; [lia|by rewrite <- app_assoc|].
        intros [|k] Hk; [done|].
        unfold attempt_fails. rewrite answer_S. apply Hf. lia.
      * destruct IH as (-> & Hf). rewrite events_S.
        split; [by rewrite <- app_assoc|].
        intros [|k] Hk; [done|].
        unfold attempt_fails. rewrite answer_S. apply Hf. lia.
Qed.

Lemma retry_unfold fuel t :
  ossListCloudBoxesRetry host lc fuel client opts t =
  loop fuel (retryTimes_of host lc) client opts 1 t.
Proof.
  unfold ossListCloudBoxesRetry, retryTimes_of.
  by destruct (GetInt host OptionRetryTimes (options lc)).
Qed.

End Retry.

(** ** The listing loop *)

Lemma requests_app (a b : Trace) : requests (a ++ b) = requests a ++ requests b.
Proof. unfold requests. apply filter_app. Qed.

Lemma rows_app (a b : Trace) : rows (a ++ b) = rows a ++ rows b.
Proof. unfold rows. apply filter_app. Qed.

Lemma requests_print_boxes (boxes : list CloudBoxProperties) :
  requests (map EvPrintBox boxes) = [].
Proof.
  induction boxes as [|b boxes IH]; [done|].
  unfold requests in *. simpl. by rewrite filter_cons.
Qed.


(** The inner loop prints a prefix of the page and nothing else. *)
Lemma print_boxes_trace (N : Z) (boxes : list CloudBoxProperties) :
  ∀ num t, ∃ k,
    (k ≤ length boxes)%nat ∧
    snd (print_boxes N boxes num t) = t ++ map EvPrintBox (take k boxes).
Proof.
  induction boxes as [|b boxes IH]; intros num t.
  - exists 0%nat. simpl. by rewrite app_nil_r.
  - simpl. destruct ((0 <=? N) && (N <=? num)).
    + exists 0%nat. simpl. split; [lia|by rewrite app_nil_r].
    + destruct (IH (int64_add num 1) (t ++ [EvPrintBox b])) as (k & Hk & ->).
      exists (S k). simpl. split; [lia|by rewrite <- app_assoc].
Qed.

(** The number of rows the inner loop prints, as long as the counter does
    not leave [int64]. *)
Lemma print_boxes_count (N : Z) (boxes : list CloudBoxProperties) :
  ∀ num t,
    0 <= num → num + len boxes <= MaxInt64 →
    let k := if N <? 0 then length boxes
             else (length boxes `min` Z.to_nat (N - num))%nat in
    print_boxes N boxes num t =
    (num + Z.of_nat k, t ++ map EvPrintBox (take k boxes)).
Proof.
  unfold len.
  induction boxes as [|b boxes IH]; intros num t Hlo Hhi.
  - simpl. destruct (N <? 0); simpl; by rewrite Z.add_0_r, app_nil_r.
  - cbn [print_boxes length]. cbn [length] in Hhi.
    destruct ((0 <=? N) && (N <=? num)) eqn:Hstop.
    + apply andb_true_iff in Hstop as [H0 HN].
      apply Z.leb_le in H0, HN.
      replace (N <? 0) with false by (symmetry; apply Z.ltb_ge; lia).
      replace (Z.to_nat (N - num)) with 0%nat by lia.
      rewrite Nat.min_0_r. simpl. by rewrite Z.add_0_r, app_nil_r.
    + rewrite int64_add_1 by (unfold MinInt64, MaxInt64 in *; lia).
      rewrite IH by lia.
      destruct (N <? 0) eqn:HN.
      * simpl take. simpl map. rewrite <- app_assoc. simpl.
        f_equal. lia.
      * apply Z.ltb_ge in HN.
        apply andb_false_iff in Hstop as [H0|H0];
          [apply Z.leb_gt in H0; lia|apply Z.leb_gt in H0].
        replace (Z.to_nat (N - num)) with (S (Z.to_nat (N - (num + 1))))
          by lia.
        rewrite <- Nat.succ_min_distr. simpl take. simpl map.
        rewrite <- app_assoc. simpl. f_equal. lia.
Qed.

Section Loop.
Context (host : Host) (lc : Command).

Lemma failed_attempt_not_final client opts t j :
  attempt_fails host client opts t j →
  ¬ final_page (EvListCloudBoxes opts (fst (attempt host client opts t j))
                                 (snd (attempt host client opts t j))).
Proof.
  unfold attempt_fails. simpl.
  destruct (snd (attempt host client opts t j)); simpl; intros H1 H2;
    [discriminate|done|done].
Qed.

(** The shape of every run of the loop, complete or cut off: the first
    request carries the cursor the loop was entered with, and a request
    answered by a final page is the last request of the run, which then
    has returned without error. *)
Lemma list_loop_trace :
  ∀ fuel N client num pre marker t,
  ∃ ext,
    trace_of (list_loop host lc fuel N client num pre marker t) = t ++ ext
    ∧ (∀ e, requests ext !! 0%nat = Some e →
            request_options e = [pre; marker])
    ∧ (∀ i e, requests ext !! i = Some e → final_page e →
              length (requests ext) = S i
              ∧ ∃ t', list_loop host lc fuel N client num pre marker t
                      = Done nil t').
Proof.
  assert (Hquiet : ∀ o t, trace_of (A:=error) o = t →
            ∃ ext, trace_of o = t ++ ext
              ∧ (∀ e, requests ext !! 0%nat = Some e → False)
              ∧ (∀ i e, requests ext !! i = Some e → False)).
  { intros o t ->. exists []. rewrite app_nil_r.
    split; [done|]. split; intros; discriminate. }
  induction fuel as [|fuel IH]; intros N client num pre marker t.
  { destruct (Hquiet (list_loop host lc 0 N client num pre marker t) t)
      as (ext & H1 & H2 & H3).
    { simpl. by destruct ((N <? 0) || (num <? N)). }
    exists ext. split; [done|]. split; [intros e He|intros i e He];
      exfalso; eauto. }
  cbn [list_loop].
  destruct ((N <? 0) || (num <? N)) eqn:Hcond; cycle 1.
  { exists []. rewrite app_nil_r. simpl.
    split; [done|]. split; intros; discriminate. }
  rewrite retry_unfold.
  pose proof (loop_trace host client [pre; marker]
                (retryTimes_of host lc) (S fuel) 1 t) as Hretry.
  destruct (ossListCloudBoxesRetry_loop host (S fuel)
              (retryTimes_of host lc) client [pre; marker] 1 t)
    as [[lcr err] t1|t1].
  - destruct Hretry as (n & Hn & Hans & -> & Hfail).
    set (evs := attempt_events host client [pre; marker] t (S n)).
    assert (Hlen : length evs = S n) by apply events_length.
    assert (Hfirst : ∀ e, evs !! 0%nat = Some e →
                          request_options e = [pre; marker]).
    { intros e He. unfold evs in He.
      rewrite events_lookup in He by lia. by injection He as <-. }
    assert (Hearly : ∀ i e, (i < n)%nat → evs !! i = Some e →
                            ¬ final_page e).
    { intros i e Hi He. unfold evs in He.
      rewrite events_lookup in He by lia. injection He as <-.
      by apply failed_attempt_not_final, Hfail. }
    assert (Hlast : evs !! n = Some (EvListCloudBoxes [pre; marker] lcr err)).
    { unfold evs. rewrite events_lookup by lia. by rewrite <- Hans. }
    destruct (is_nil err) eqn:Herr; simpl negb; cbv iota.
    + apply is_nil_true in Herr. subst err.
      set (hdr := if (num =? 0) && (0 <? len (CloudBoxes lcr))
                  then [EvPrintHeader] else []).
      replace (if (num =? 0) && (0 <? len (CloudBoxes lcr))
               then (t ++ evs) ++ [EvPrintHeader] else t ++ evs)
        with ((t ++ evs) ++ hdr)
        by (unfold hdr; destruct ((num =? 0) && (0 <? len (CloudBoxes lcr)));
            [done|by rewrite app_nil_r]).
      assert (Hhdr : requests hdr = []).
      { unfold hdr.
        by destruct ((num =? 0) && (0 <? len (CloudBoxes lcr))). }
      destruct (print_boxes_trace N (CloudBoxes lcr) num ((t ++ evs) ++ hdr))
        as (k & _ & Hrows).
      destruct (print_boxes N (CloudBoxes lcr) num ((t ++ evs) ++ hdr))
        as [num' t3]. simpl in Hrows. subst t3.
      set (rs := map EvPrintBox (take k (CloudBoxes lcr))).
      assert (Hrs : requests rs = []) by apply requests_print_boxes.
      destruct (IsTruncated lcr) eqn:Htrunc; simpl negb; cbv iota.
      * destruct (IH N client num' (Prefix (lcr_Prefix lcr))
                    (Marker (NextMarker lcr)) (((t ++ evs) ++ hdr) ++ rs))
          as (ext' & Htr & _ & Hfin).
        exists (evs ++ hdr ++ rs ++ ext').
        assert (Hreq : requests (evs ++ hdr ++ rs ++ ext') =
                       evs ++ requests ext').
        { rewrite !requests_app, Hhdr, Hrs. simpl.
          unfold evs. by rewrite events_requests. }
        rewrite Hreq. split; [|split].
        -- rewrite Htr. by rewrite <- !app_assoc.
        -- intros e He. apply Hfirst.
           rewrite lookup_app_l in He by lia. done.
        -- intros i e He Hfp.
           apply lookup_app_Some in He as [He|[Hi He]].
           ++ exfalso.
              assert (i < S n)%nat as Hi
                by (apply lookup_lt_Some in He; lia).
              destruct (decide (i = n)) as [->|Hne].
              ** rewrite Hlast in He. injection He as <-.
                 simpl in Hfp. congruence.
              ** apply (Hearly i e); [lia|done|done].
           ++ destruct (Hfin _ _ He Hfp) as (Hl & t' & Hdone).
              rewrite length_app, Hl. split; [lia|eauto].
      * exists (evs ++ hdr ++ rs).
        assert (Hreq : requests (evs ++ hdr ++ rs) = evs).
        { rewrite !requests_app, Hhdr, Hrs. simpl. rewrite app_nil_r.
          unfold evs. by rewrite events_requests. }
        rewrite Hreq. simpl. split; [|split].
        -- by rewrite <- !app_assoc.
        -- done.
        -- intros i e He Hfp. split; [|eauto].
           assert (i < S n)%nat as Hi
             by (apply lookup_lt_Some in He; lia).
           destruct (decide (i = n)) as [->|Hne]; [lia|].
           exfalso. apply (Hearly i e); [lia|done|done].
    + exists evs. simpl.
      assert (Hreq : requests evs = evs)
        by (unfold evs; by rewrite events_requests).
      rewrite Hreq. split; [done|]. split; [done|].
      intros i e He Hfp. exfalso.
      assert (i < S n)%nat as Hi by (apply lookup_lt_Some in He; lia).
      destruct (decide (i = n)) as [->|Hne].
      * rewrite Hlast in He. injection He as <-.
        simpl in Hfp. by destruct err.
      * apply (Hearly i e); [lia|done|done].
  - destruct Hretry as (-> & Hfail).
    exists (attempt_events host client [pre; marker] t (S fuel)).
    rewrite events_requests. cbn [trace_of]. split; [done|]. split.
    + intros e He. rewrite events_lookup in He by lia.
      by injection He as <-.
    + intros i e He Hfp.
      assert (i < S fuel)%nat as Hi.
      { apply lookup_lt_Some in He. by rewrite events_length in He. }
      rewrite events_lookup in He by lia. injection He as <-.
      by destruct (failed_attempt_not_final _ _ _ _ (Hfail i Hi)).
Qed.

(** One turn of the loop whose first attempt is answered by the page
    [p]. *)
Lemma list_loop_step fuel N client num pre marker t p :
  (N <? 0) || (num <? N) = true →
  ListCloudBoxes host t client [pre; marker] = (p, nil) →
  0 <= num → num + len (CloudBoxes p) <= MaxInt64 →
  let k := if N <? 0 then length (CloudBoxes p)
           else (length (CloudBoxes p) `min` Z.to_nat (N - num))%nat in
  let hdr := if (num =? 0) && (0 <? len (CloudBoxes p))
             then [EvPrintHeader] else [] in
  let t3 := t ++ [EvListCloudBoxes [pre; marker] p nil] ++ hdr
              ++ map EvPrintBox (take k (CloudBoxes p)) in
  list_loop host lc (S fuel) N client num pre marker t =
  if IsTruncated p
  then list_loop host lc fuel N client (num + Z.of_nat k)
         (Prefix (lcr_Prefix p)) (Marker (NextMarker p)) t3
  else Done nil t3.
Proof.
  intros Hcond Hans Hlo Hhi k hdr t3.
  cbn [list_loop]. rewrite Hcond, retry_unfold.
  rewrite (loop_run host client [pre; marker] (retryTimes_of host lc) 0);
    [ | lia | unfold MinInt64; lia | unfold MaxInt64; lia
      | intros j Hj; lia | intros j Hj; lia
      | left; by rewrite answer_0, Hans ].
  rewrite answer_0, events_S. unfold attempt_event.
  rewrite answer_0, Hans. cbn [fst snd attempt_events is_nil negb].
  replace (if (num =? 0) && (0 <? len (CloudBoxes p))
           then (t ++ [EvListCloudBoxes [pre; marker] p nil])
                  ++ [EvPrintHeader]
           else t ++ [EvListCloudBoxes [pre; marker] p nil])
    with ((t ++ [EvListCloudBoxes [pre; marker] p nil]) ++ hdr)
    by (unfold hdr; destruct ((num =? 0) && (0 <? len (CloudBoxes p)));
        [done|by rewrite app_nil_r]).
  rewrite print_boxes_count by done. fold k.
  replace (((t ++ [EvListCloudBoxes [pre; marker] p nil]) ++ hdr)
             ++ map EvPrintBox (take k (CloudBoxes p))) with t3
    by (unfold t3; by rewrite <- !app_assoc).
  by destruct (IsTruncated p).
Qed.


(** What [RunCommand] does before it enters the loop. *)
Lemma RunCommand_cases fuel :
  (¬ (argument_parses host lc ∧ marker_decodes host lc)
   ∧ ∃ err, RunCommand host lc fuel = Done err [] ∧ err ≠ nil)
  ∨ (snd (ossClient host lc "") ≠ nil
     ∧ RunCommand host lc fuel =
       Done (snd (ossClient host lc "")) [EvOssClient ""])
  ∨ (starts_listing host lc ∧
     RunCommand host lc fuel =
     list_loop host lc fuel (limitedNum_of host lc)
       (fst (ossClient host lc "")) 0
       (Prefix (prefix_of host lc)) (Marker (vmarker_of host lc))
       [EvOssClient ""]).
Proof.
  unfold RunCommand, starts_listing, argument_parses, marker_decodes,
    prefix_of, limitedNum_of, vmarker_of.
  destruct (args lc) as [|arg0 rest].
  - simpl.
    destruct (GetInt host OptionLimitedNum (options lc)) as [N ?].
    destruct (GetString host OptionMarker (options lc)) as [vm ?].
    simpl.
    destruct (getRawMarker host lc vm) as [vm' e1]. simpl.
    destruct (is_nil e1) eqn:H1; simpl.
    + apply is_nil_true in H1. subst e1.
      destruct (ossClient host lc "") as [cl e2]. simpl.
      destruct (is_nil e2) eqn:H2; simpl.
      * apply is_nil_true in H2. subst e2. right. right. done.
      * right. left. split; [by apply is_nil_false|done].
    + left. apply is_nil_false in H1.
      split; [by intros [_ ?]|]. eexists. split; [done|]. done.
  - destruct (CloudURLFromString host arg0 "") as [url e0]. simpl.
    destruct (is_nil e0) eqn:H0; simpl.
    + apply is_nil_true in H0. subst e0.
      destruct (GetInt host OptionLimitedNum (options lc)) as [N ?].
      destruct (GetString host OptionMarker (options lc)) as [vm ?].
      simpl.
      destruct (getRawMarker host lc vm) as [vm' e1]. simpl.
      destruct (is_nil e1) eqn:H1; simpl.
      * apply is_nil_true in H1. subst e1.
        destruct (ossClient host lc "") as [cl e2]. simpl.
        destruct (is_nil e2) eqn:H2; simpl.
        -- apply is_nil_true in H2. subst e2. right. right. done.
        -- right. left. split; [by apply is_nil_false|done].
      * left. apply is_nil_false in H1.
        split; [by intros [_ ?]|]. eexists. split; [done|]. done.
    + rewrite H0. simpl. left. apply is_nil_false in H0.
      split; [by intros [? _]|]. eexists. split; [done|done].
Qed.

Lemma RunCommand_listing fuel :
  starts_listing host lc →
  RunCommand host lc fuel =
  list_loop host lc fuel (limitedNum_of host lc)
    (fst (ossClient host lc "")) 0
    (Prefix (prefix_of host lc)) (Marker (vmarker_of host lc))
    [EvOssClient ""].
Proof.
  intros (Harg & Hmark & Hcl).
  destruct (RunCommand_cases fuel) as [(Hno & _)|[(Hno & _)|(_ & H)]];
    [by destruct Hno|done|done].
Qed.

(** A loop that is entered makes a first request. *)
Lemma list_loop_first_request fuel N client num pre marker t :
  (N <? 0) || (num <? N) = true →
  ∃ ext, trace_of (list_loop host lc (S fuel) N client num pre marker t)
         = t ++ attempt_event host client [pre; marker] t :: ext.
Proof.
  intros Hcond. cbn [list_loop]. rewrite Hcond, retry_unfold.
  pose proof (loop_trace host client [pre; marker]
                (retryTimes_of host lc) (S fuel) 1 t) as Hretry.
  destruct (ossListCloudBoxesRetry_loop host (S fuel)
              (retryTimes_of host lc) client [pre; marker] 1 t)
    as [[lcr err] t1|t1].
  - destruct Hretry as (n & _ & _ & -> & _). rewrite events_S.
    destruct (negb (is_nil err)); [simpl; eauto|].
    set (t2 := if (num =? 0) && (0 <? len (CloudBoxes lcr)) then _ else _).
    assert (Ht2 : ∃ hdr, t2 = (t ++ attempt_event host client [pre; marker] t
               :: attempt_events host client [pre; marker]
                    (t ++ [attempt_event host client [pre; marker] t]) n)
               ++ hdr).
    { unfold t2. destruct ((num =? 0) && (0 <? len (CloudBoxes lcr)));
        [eauto|exists []; by rewrite app_nil_r]. }
    destruct Ht2 as (hdr & ->).
    destruct (print_boxes_trace N (CloudBoxes lcr) num
                ((t ++ attempt_event host client [pre; marker] t
                  :: attempt_events host client [pre; marker]
                       (t ++ [attempt_event host client [pre; marker] t]) n)
                 ++ hdr)) as (k & _ & Hrows).
    destruct (print_boxes N (CloudBoxes lcr) num _) as [num' t3].
    simpl in Hrows. subst t3.
    destruct (negb (IsTruncated lcr)).
    + simpl. rewrite <- !app_assoc. simpl. eauto.
    + destruct (list_loop_trace fuel N client num'
                  (Prefix (lcr_Prefix lcr)) (Marker (NextMarker lcr))
                  (((t ++ attempt_event host client [pre; marker] t
                     :: attempt_events host client [pre; marker]
                          (t ++ [attempt_event host client [pre; marker] t])
                          n) ++ hdr)
                   ++ map EvPrintBox (take k (CloudBoxes lcr))))
        as (ext & -> & _).
      rewrite <- !app_assoc. simpl. eauto.
  - destruct Hretry as (-> & _). rewrite events_S. simpl. eauto.
Qed.

End Loop.





(** C8.  In every run, complete or cut off, a listing request that is
    answered without error by a page whose truncation flag is false is
    the last listing request of the run, and the command has returned
    without error.  In particular ([i = 0]) such an answer to the first
    request leaves exactly one request in the run. *)
Theorem listing_stops_at_final_page (host : Host) (lc : Command)
    (fuel : nat) (i : nat) (e : Event) :
  requests (trace_of (RunCommand host lc fuel)) !! i = Some e →
  final_page e →
  length (requests (trace_of (RunCommand host lc fuel))) = S i
  ∧ ∃ t, RunCommand host lc fuel = Done nil t.
Proof.
  destruct (RunCommand_cases host lc fuel)
    as [(_ & err & -> & _)|[(_ & ->)|(_ & ->)]]; try done.
  destruct (list_loop_trace host lc fuel (limitedNum_of host lc)
              (fst (ossClient host lc "")) 0
              (Prefix (prefix_of host lc)) (Marker (vmarker_of host lc))
              [EvOssClient ""]) as (ext & Htr & _ & Hfin).
  rewrite Htr. rewrite requests_app.
  change (requests [EvOssClient ""]) with ([] : Trace). simpl.
  apply Hfin.
Qed.

Lemma listing_stops_at_final_page_witness :
  requests (trace_of (RunCommand final_first_host
                        (sample_command (-1) 3 "") 5)) !! 0%nat
  = Some (EvListCloudBoxes sample_cursor page2 nil)
  ∧ final_page (EvListCloudBoxes sample_cursor page2 nil)
  ∧ length (requests (trace_of (RunCommand final_first_host
                                  (sample_command (-1) 3 "") 5))) = 1%nat
  ∧ ∃ t, RunCommand final_first_host (sample_command (-1) 3 "") 5
         = Done nil t.
Proof.
  set (host := final_first_host). set (lc := sample_command (-1) 3 "").
  set (e := EvListCloudBoxes sample_cursor page2 nil).
  assert (H1 : requests (trace_of (RunCommand host lc 5)) !! 0%nat = Some e)
    by reflexivity.
  assert (H2 : final_page e) by reflexivity.
  split; [exact H1|]. split; [exact H2|].
  exact (listing_stops_at_final_page host lc 5 0 e H1 H2).
Defined.

(** A first page that is final is fetched, and is the only one. *)
Lemma first_final_page_single_request (host : Host) (lc : Command)
    (fuel : nat) (lbr : ListCloudBoxResult) :
  starts_listing host lc →
  limitedNum_of host lc ≠ 0 →
  (1 ≤ fuel)%nat →
  ListCloudBoxes host [EvOssClient ""] (fst (ossClient host lc ""))
    [Prefix (prefix_of host lc); Marker (vmarker_of host lc)] = (lbr, nil) →
  IsTruncated lbr = false →
  len (CloudBoxes lbr) <= MaxInt64 →
  ∃ t, RunCommand host lc fuel = Done nil t
       ∧ requests t =
         [EvListCloudBoxes
            [Prefix (prefix_of host lc); Marker (vmarker_of host lc)]
            lbr nil].
Proof.
  intros Hstart HN Hfuel Hans Htrunc Hfit.
  rewrite RunCommand_listing by done.
  destruct fuel as [|fuel]; [lia|].
  rewrite (list_loop_step host lc fuel _ _ 0 _ _ _ lbr);
    [|apply orb_true_iff; rewrite Z.ltb_lt, Z.ltb_lt; lia|done|lia|lia].
  rewrite Htrunc. eexists. split; [done|].
  rewrite !requests_app, requests_print_boxes.
  by destruct ((0 =? 0) && (0 <? len (CloudBoxes lbr))).
Qed.

(** C9.  When the marker option is URL-decodable, the value that
    [getRawMarker] decoded is dropped: the first listing request of the
    run carries the prefix and the marker string exactly as it was given
    on the command line.  Such a first request is made whenever the run
    reaches the loop with a limit other than zero. *)
Theorem first_request_carries_given_marker (host : Host) (lc : Command)
    (fuel : nat) :
  marker_decodes host lc →
  (∀ e, requests (trace_of (RunCommand host lc fuel)) !! 0%nat = Some e →
        request_options e =
        [Prefix (prefix_of host lc); Marker (vmarker_of host lc)])
  ∧ (argument_parses host lc → snd (ossClient host lc "") = nil →
     limitedNum_of host lc ≠ 0 → (1 ≤ fuel)%nat →
     ∃ e, requests (trace_of (RunCommand host lc fuel)) !! 0%nat = Some e).
Proof.
  intros Hdec. split.
  - destruct (RunCommand_cases host lc fuel)
      as [(_ & err & -> & _)|[(_ & ->)|(_ & ->)]]; try done.
    destruct (list_loop_trace host lc fuel (limitedNum_of host lc)
                (fst (ossClient host lc "")) 0
                (Prefix (prefix_of host lc)) (Marker (vmarker_of host lc))
                [EvOssClient ""]) as (ext & Htr & Hfirst & _).
    rewrite Htr, requests_app.
    change (requests [EvOssClient ""]) with ([] : Trace). simpl.
    apply Hfirst.
  - intros Harg Hcl HN Hfuel.
    rewrite RunCommand_listing by done.
    destruct fuel as [|fuel]; [lia|].
    destruct (list_loop_first_request host lc fuel (limitedNum_of host lc)
                (fst (ossClient host lc "")) 0
                (Prefix (prefix_of host lc)) (Marker (vmarker_of host lc))
                [EvOssClient ""]) as (ext & ->).
    { apply orb_true_iff. rewrite Z.ltb_lt, Z.ltb_lt. lia. }
    eexists. rewrite requests_app.
    change (requests [EvOssClient ""]) with ([] : Trace).
    unfold requests. rewrite filter_cons. simpl. done.
Qed.

Lemma first_request_carries_given_marker_witness :
  marker_decodes two_page_host (sample_command (-1) 3 "a%2Fb")
  ∧ getRawMarker two_page_host (sample_command (-1) 3 "a%2Fb")
      (vmarker_of two_page_host (sample_command (-1) 3 "a%2Fb"))
    = ("a/b", nil)
  ∧ requests (trace_of (RunCommand two_page_host
                          (sample_command (-1) 3 "a%2Fb") 3)) !! 0%nat
    = Some (EvListCloudBoxes [Prefix "cb"; Marker "a%2Fb"] page1 nil)
  ∧ request_options
      (EvListCloudBoxes [Prefix "cb"; Marker "a%2Fb"] page1 nil) =
    [Prefix "cb"; Marker "a%2Fb"].
Proof.
  set (host := two_page_host). set (lc := sample_command (-1) 3 "a%2Fb").
  assert (Hdec : marker_decodes host lc) by reflexivity.
  split; [exact Hdec|]. split; [reflexivity|]. split; [reflexivity|].
  destruct (first_request_carries_given_marker host lc 3 Hdec) as (H & _).
  exact (H (EvListCloudBoxes [Prefix "cb"; Marker "a%2Fb"] page1 nil)
           eq_refl).
Defined.

(** C2.  With [retryTimes = m >= 1]: a page request that fails [m - 1]
    times and then succeeds returns the successful result and no error;
    one that fails [m] times returns the answer, hence the error, of
    attempt [m].  A retry follows an error only: the first success, after
    [n < m] failures, is returned at once.  In each case the trace grows
    by exactly the listed attempts, one directly after the other. *)
Theorem retry_count_respected (host : Host) (lc : Command)
    (client : Client) (opts : list oss_Option) (t : Trace)
    (retryTimes : Z) :
  retryTimes_of host lc = retryTimes →
  1 <= retryTimes <= MaxInt64 →
  let m := Z.to_nat retryTimes in
  (∀ fuel, (m ≤ fuel)%nat →
     (∀ k, (k < m - 1)%nat → attempt_fails host client opts t k) →
     snd (attempt host client opts t (m - 1)) = nil →
     ossListCloudBoxesRetry host lc fuel client opts t =
     Done (fst (attempt host client opts t (m - 1)), nil)
          (t ++ attempt_events host client opts t m))
  ∧ (∀ fuel, (m ≤ fuel)%nat →
     (∀ k, (k < m)%nat → attempt_fails host client opts t k) →
     ossListCloudBoxesRetry host lc fuel client opts t =
     Done (attempt host client opts t (m - 1))
          (t ++ attempt_events host client opts t m)
     ∧ snd (attempt host client opts t (m - 1)) ≠ nil)
  ∧ (∀ fuel n, (n < m)%nat → (n < fuel)%nat →
     (∀ k, (k < n)%nat → attempt_fails host client opts t k) →
     snd (attempt host client opts t n) = nil →
     ossListCloudBoxesRetry host lc fuel client opts t =
     Done (fst (attempt host client opts t n), nil)
          (t ++ attempt_events host client opts t (S n))).
Proof.
  intros Hrt [Hlo Hhi] m.
  assert (Hm : (1 ≤ m)%nat) by (unfold m; lia).
  assert (Hsucc : ∀ fuel n, (n < m)%nat → (n < fuel)%nat →
     (∀ k, (k < n)%nat → attempt_fails host client opts t k) →
     snd (attempt host client opts t n) = nil →
     ossListCloudBoxesRetry host lc fuel client opts t =
     Done (fst (attempt host client opts t n), nil)
          (t ++ attempt_events host client opts t (S n))).
  { intros fuel n Hn Hfuel Hfail Hok.
    rewrite retry_unfold, Hrt.
    rewrite (loop_run host client opts retryTimes n);
      [ | lia | unfold MinInt64; lia | unfold m, MaxInt64 in *; lia
        | assumption | intros k Hk; unfold m in *; lia
        | left; by rewrite Hok ].
    destruct (attempt host client opts t n) as [lbr err].
    simpl in Hok. by subst err. }
  split; [|split; [|exact Hsucc]].
  - intros fuel Hfuel Hfail Hok.
    rewrite (Hsucc fuel (m - 1)%nat); [|lia|lia|done|done].
    by replace (S (m - 1)) with m by lia.
  - intros fuel Hfuel Hfail. split.
    + rewrite retry_unfold, Hrt.
      rewrite (loop_run host client opts retryTimes (m - 1));
        [ | lia | unfold MinInt64; lia | unfold m, MaxInt64 in *; lia
          | intros k Hk; apply Hfail; lia
          | intros k Hk; unfold m in *; lia
          | right; unfold m; lia ].
      by replace (S (m - 1)) with m by lia.
    + apply is_nil_false, (Hfail (m - 1)%nat). lia.
Qed.

Lemma retry_count_respected_witness :
  retryTimes_of flaky_host (sample_command (-1) 3 "") = 3
  ∧ 1 <= 3 <= MaxInt64
  ∧ ossListCloudBoxesRetry flaky_host (sample_command (-1) 3 "") 3
      sample_client sample_cursor [EvOssClient ""] =
    Done (page1, nil)
         [EvOssClient "";
          EvListCloudBoxes sample_cursor page1 timeout_error;
          EvListCloudBoxes sample_cursor page1 timeout_error;
          EvListCloudBoxes sample_cursor page1 nil]
  ∧ ossListCloudBoxesRetry down_host (sample_command (-1) 3 "") 3
      sample_client sample_cursor [EvOssClient ""] =
    Done (empty_page, timeout_error)
         [EvOssClient "";
          EvListCloudBoxes sample_cursor empty_page timeout_error;
          EvListCloudBoxes sample_cursor empty_page timeout_error;
          EvListCloudBoxes sample_cursor empty_page timeout_error].
Proof.
  set (host := flaky_host). set (lc := sample_command (-1) 3 "").
  set (client := sample_client). set (opts := sample_cursor).
  assert (Hr : 1 <= 3 <= MaxInt64) by (unfold MaxInt64; lia).
  split; [reflexivity|]. split; [exact Hr|]. split.
  - destruct (retry_count_respected host lc client opts [EvOssClient ""] 3
                eq_refl Hr) as (H & _ & _).
    apply (H 3%nat); [simpl; lia| |reflexivity].
    intros k Hk. simpl in Hk.
    destruct k as [|[|k]]; [reflexivity|reflexivity|lia].
  - destruct (retry_count_respected down_host lc client opts
                [EvOssClient ""] 3 eq_refl Hr) as (_ & H & _).
    apply (H 3%nat); [simpl; lia|].
    intros k Hk. reflexivity.
Defined.

(** C7.  Within one page fetch every attempt carries the options the
    fetch was called with: the trace grows by request events that all
    have exactly these options, whatever prefix and marker the answers to
    the failed attempts contained. *)
Theorem retry_keeps_cursor (host : Host) (lc : Command) (fuel : nat)
    (client : Client) (opts : list oss_Option) (t : Trace) :
  ∃ k,
    trace_of (ossListCloudBoxesRetry host lc fuel client opts t) =
    t ++ attempt_events host client opts t k
    ∧ Forall (λ e, ∃ lbr err, e = EvListCloudBoxes opts lbr err)
             (attempt_events host client opts t k).
Proof.
  assert (Hall : ∀ k, Forall (λ e, ∃ lbr err, e = EvListCloudBoxes opts lbr err)
                        (attempt_events host client opts t k)).
  { intros k. apply Forall_lookup. intros j e He.
    assert (j < k)%nat as Hj.
    { apply lookup_lt_Some in He.
      by rewrite events_length in He. }
    rewrite (events_lookup host client opts t k j Hj) in He.
    injection He as <-. eauto. }
  rewrite retry_unfold.
  pose proof (loop_trace host client opts (retryTimes_of host lc) fuel 1 t)
    as H.
  destruct (ossListCloudBoxesRetry_loop host fuel (retryTimes_of host lc)
              client opts 1 t) as [r t'|t']; simpl.
  - destruct H as (n & _ & _ & -> & _). exists (S n). split; [done|apply Hall].
  - destruct H as (-> & _). exists fuel. split; [done|apply Hall].
Qed.

(** C10.  With [retryTimes <= 1] (zero and negative values included) a
    page fetch makes exactly one attempt and returns its result and error
    as they are.  In general, when every attempt fails, the fetch makes
    [max 1 retryTimes] attempts. *)
Theorem retry_attempts_at_least_one (host : Host) (lc : Command)
    (client : Client) (opts : list oss_Option) (t : Trace)
    (retryTimes : Z) :
  retryTimes_of host lc = retryTimes →
  retryTimes <= MaxInt64 →
  (retryTimes <= 1 → ∀ fuel, (1 ≤ fuel)%nat →
     ossListCloudBoxesRetry host lc fuel client opts t =
     Done (ListCloudBoxes host t client opts)
          (t ++ [attempt_event host client opts t]))
  ∧ ((∀ k, attempt_fails host client opts t k) →
     ∀ fuel, (Z.to_nat (Z.max 1 retryTimes) ≤ fuel)%nat →
     ∃ r evs,
       ossListCloudBoxesRetry host lc fuel client opts t = Done r (t ++ evs)
       ∧ snd r ≠ nil
       ∧ evs = attempt_events host client opts t
                 (Z.to_nat (Z.max 1 retryTimes))
       ∧ len (requests evs) = Z.max 1 retryTimes).
Proof.
  intros Hrt Hhi. split.
  - intros Hle fuel Hfuel. rewrite retry_unfold, Hrt.
    rewrite (loop_run host client opts retryTimes 0);
      [ | lia | unfold MinInt64; lia | unfold MaxInt64; lia
        | intros k Hk; lia | intros k Hk; lia | right; lia ].
    by rewrite answer_0, events_S.
  - intros Hfail fuel Hfuel.
    set (m := Z.to_nat (Z.max 1 retryTimes)) in *.
    assert (Hm : (1 ≤ m)%nat) by (unfold m; lia).
    exists (attempt host client opts t (m - 1)),
           (attempt_events host client opts t m).
    split; [|split; [|split]].
    + rewrite retry_unfold, Hrt.
      rewrite (loop_run host client opts retryTimes (m - 1));
        [ | lia | unfold MinInt64; lia | unfold m, MaxInt64 in *; lia
          | intros k _; apply Hfail
          | intros k Hk; unfold m in *; lia
          | right; unfold m; lia ].
      by replace (S (m - 1)) with m by lia.
    + apply is_nil_false, Hfail.
    + done.
    + rewrite events_requests. unfold len. rewrite events_length.
      unfold m. lia.
Qed.

Lemma retry_attempts_at_least_one_witness :
  (retryTimes_of down_host (sample_command (-1) 0 "") = 0
   ∧ 0 <= MaxInt64
   ∧ ossListCloudBoxesRetry down_host (sample_command (-1) 0 "") 1
       sample_client sample_cursor [EvOssClient ""] =
     Done (empty_page, timeout_error)
          [EvOssClient "";
           EvListCloudBoxes sample_cursor empty_page timeout_error])
  ∧ (retryTimes_of down_host (sample_command (-1) 3 "") = 3
     ∧ 3 <= MaxInt64
     ∧ ∃ r evs,
         ossListCloudBoxesRetry down_host (sample_command (-1) 3 "") 3
           sample_client sample_cursor [EvOssClient ""] =
         Done r ([EvOssClient ""] ++ evs)
         ∧ snd r ≠ nil ∧ len (requests evs) = 3).
Proof.
  set (client := sample_client). set (opts := sample_cursor).
  assert (H0 : 0 <= MaxInt64) by (unfold MaxInt64; lia).
  assert (H3 : 3 <= MaxInt64) by (unfold MaxInt64; lia).
  split.
  - split; [reflexivity|]. split; [exact H0|].
    destruct (retry_attempts_at_least_one down_host
                (sample_command (-1) 0 "") client opts
                [EvOssClient ""] 0 eq_refl H0) as (H & _).
    apply (H ltac:(lia) 1%nat). lia.
  - split; [reflexivity|]. split; [exact H3|].
    destruct (retry_attempts_at_least_one down_host
                (sample_command (-1) 3 "") client opts
                [EvOssClient ""] 3 eq_refl H3) as (_ & H).
    destruct (H (λ k, eq_refl) 3%nat ltac:(simpl; lia))
      as (r & evs & Hrun & Herr & _ & Hlen).
    exists r, evs. split; [exact Hrun|]. split; [exact Herr|exact Hlen].
Defined.

End LcbSpec.

(** ** The marker check of [lcb] *)

Module LcbMarkerSpec.
Import Lcb LcbSpec LcbMarker.





End LcbMarkerSpec.

(** ** The append command *)

Module AppendFileSpec.
Import AppendFile.

Lemma string_nonempty_true (s : string) : string_nonempty s = true ↔ s ≠ "".
Proof. destruct s; simpl; split; congruence. Qed.

Lemma string_nonempty_false (s : string) : string_nonempty s = false ↔ s = "".
Proof. destruct s; simpl; split; congruence. Qed.

(** Name the two arguments of a command that has exactly two. *)
Ltac two_arguments afc H :=
  let l := fresh "l" in
  let o := fresh "o" in
  destruct afc as [l o]; unfold two_args in H; simpl in H;
  destruct l as [|? [|? [|? ?]]]; simpl in H; try discriminate H;
  clear H.

(** Walk down [RunCommand], splitting on each oracle answer and each
    test in turn. *)
Ltac plain x :=
  lazymatch x with
  | context [match _ with _ => _ end] => fail
  | _ => idtac
  end.

Ltac walk :=
  repeat (simpl;
    match goal with
    | |- context [match ?x with (_, _) => _ end] =>
        plain x; let E := fresh "E" in destruct x eqn:E
    | |- context [if ?b then _ else _] =>
        plain b; let E := fresh "E" in destruct b eqn:E
    end).

(** Point at an event of an explicit trace. *)
Ltac find_event :=
  repeat (first [apply list_elem_of_here | apply list_elem_of_further]).

Ltac unfold_vocabulary :=
  unfold validates, object_exists, object_missing, meta_supplied,
    start_position, reported_length, validation_trace,
    bucket_of, client_of, stat_of, url_of, ossMeta_of, encodingType_of,
    arg in *.

(** C5.  A local file whose reported size exceeds [MaxAppendObjectSize]
    makes the command return an error; its trace holds no [os.OpenFile]
    and no call to the service.  When the target URL is accepted and the
    path is no directory, the error is the size error and [os.Stat] is
    all that has happened. *)
Theorem oversized_file_rejected (host : Host) (afc : Command) :
  two_args afc →
  snd (os_Stat host (arg afc 0)) = nil →
  MaxAppendObjectSize host < Size (stat_of host afc) →
  is_error (fst (RunCommand host afc)) = true
  ∧ Forall (λ e, is_open e = false ∧ is_network_call e = false)
           (snd (RunCommand host afc))
  ∧ (snd (GetCloudUrl host (arg afc 1) (encodingType_of host afc)) = nil →
     object (url_of host afc) ≠ "" →
     IsDir (stat_of host afc) = false →
     RunCommand host afc =
     (Returns (errorString
                 ("locafile:" +:+ arg afc 0 +:+ " is bigger than "
                  +:+ pretty (MaxAppendObjectSize host)
                  +:+ ", it is not support by append")),
      [EvStat (arg afc 0)])).
Proof.
  intros Hargs Hstat Hbig. two_arguments afc Hargs.
  revert Hstat Hbig. unfold RunCommand. unfold_vocabulary. simpl.
  destruct (GetString host OptionEncodingType o) as [enc e1].
  destruct (GetString host OptionMeta o) as [meta e2]. simpl.
  destruct (GetCloudUrl host s0 enc) as [url e3]. simpl.
  destruct (os_Stat host s) as [stat e4]. simpl.
  intros -> Hbig. apply Z.ltb_lt in Hbig. rewrite Hbig.
  destruct (is_nil e3) eqn:E3; simpl;
    [apply is_nil_true in E3; subst e3|].
  - destruct (string_nonempty (object url)) eqn:Eo; simpl.
    + apply string_nonempty_true in Eo.
      destruct (IsDir stat) eqn:Ed; simpl.
      * split; [done|]. split; [by repeat constructor|]. done.
      * split; [done|]. split; [by repeat constructor|]. done.
    + apply string_nonempty_false in Eo.
      split; [done|]. split; [constructor|]. done.
  - split; [by destruct e3|]. split; [constructor|].
    intros ->. done.
Qed.

Lemma oversized_file_rejected_witness :
  two_args append_huge
  ∧ snd (os_Stat local_host (arg append_huge 0)) = nil
  ∧ MaxAppendObjectSize local_host < Size (stat_of local_host append_huge)
  ∧ RunCommand local_host append_huge =
    (Returns (errorString
       "locafile:huge.bin is bigger than 5368709120, it is not support by append"),
     [EvStat "huge.bin"]).
Proof.
  set (host := local_host). set (afc := append_huge).
  assert (H1 : two_args afc) by reflexivity.
  assert (H2 : snd (os_Stat host (arg afc 0)) = nil) by reflexivity.
  assert (H3 : MaxAppendObjectSize host < Size (stat_of host afc))
    by reflexivity.
  split; [exact H1|]. split; [exact H2|]. split; [exact H3|].
  destruct (oversized_file_rejected host afc H1 H2 H3) as (_ & _ & H).
  rewrite H; [reflexivity|reflexivity|discriminate|reflexivity].
Defined.

(** The claim C1 as it is worded fails: the existence of the remote object
    is learnt from [IsObjectExist], a call to the service, which therefore
    precedes the metadata check. *)
Lemma meta_check_follows_existence_call :
  object_exists local_host append_existing_with_meta
  ∧ meta_supplied local_host append_existing_with_meta
  ∧ ¬ fails_before_any_network_call local_host append_existing_with_meta.
Proof.
  split; [reflexivity|]. split; [discriminate|].
  intros [_ H]. vm_compute in H.
  repeat match type of H with
         | Forall _ (_ :: _) => apply Forall_cons in H as [? H]
         end.
  discriminate.
Qed.

(** C1, amended.  When the service reports that the object exists and
    [--meta] is not empty, the command returns an error; no file is
    opened, no metadata fetched and no append attempted, the existence
    check being the only call to the service that can show in the trace.
    When everything before the existence check succeeds, the error is
    the metadata one and the trace ends with the existence check. *)
Theorem meta_on_existing_object_rejected (host : Host) (afc : Command) :
  two_args afc →
  object_exists host afc →
  meta_supplied host afc →
  is_error (fst (RunCommand host afc)) = true
  ∧ Forall (λ e, is_open e = false ∧ is_append e = false
                 ∧ (is_network_call e = true →
                    e = EvIsObjectExist (object (url_of host afc))))
           (snd (RunCommand host afc))
  ∧ (validates host afc →
     RunCommand host afc =
     (Returns (errorString
                 "setting meta on existing append object is not supported"),
      validation_trace host afc)).
Proof.
  intros Hargs Hex Hmeta. two_arguments afc Hargs.
  revert Hex Hmeta. unfold RunCommand. unfold_vocabulary. simpl.
  destruct (GetString host OptionEncodingType o) as [enc e1].
  destruct (GetString host OptionMeta o) as [meta e2]. simpl.
  destruct (GetCloudUrl host s0 enc) as [url e3]. simpl.
  destruct (os_Stat host s) as [stat e4]. simpl.
  destruct (ossClient host _ (bucket url)) as [client e5]. simpl.
  destruct (client_Bucket host client (bucket url)) as [bkt e6]. simpl.
  intros -> Hmeta. apply string_nonempty_true in Hmeta. rewrite Hmeta.
  simpl.
  destruct (is_nil e3) eqn:E3; simpl;
    [|split; [by destruct e3|];
      split; [constructor|]; by intros (_ & -> & _)].
  destruct (string_nonempty (object url)) eqn:Eo; simpl;
    [|apply string_nonempty_false in Eo; split; [done|];
      split; [constructor|]; by intros (_ & _ & ? & _)].
  destruct (is_nil e4) eqn:E4; simpl;
    [|split; [by destruct e4|]; split; [by repeat constructor|];
      by intros (_ & _ & _ & -> & _)].
  destruct (IsDir stat) eqn:Ed; simpl;
    [split; [done|]; split; [by repeat constructor|];
     by intros (_ & _ & _ & _ & ? & _)|].
  destruct (MaxAppendObjectSize host <? Size stat) eqn:Es; simpl;
    [apply Z.ltb_lt in Es; split; [done|];
     split; [by repeat constructor|];
     intros (_ & _ & _ & _ & _ & ? & _); lia|].
  destruct (is_nil e5) eqn:E5; simpl;
    [|split; [by destruct e5|]; split; [by repeat constructor|];
      by intros (_ & _ & _ & _ & _ & _ & -> & _)].
  destruct (is_nil e6) eqn:E6; simpl;
    [|split; [by destruct e6|]; split; [by repeat constructor|];
      by intros (_ & _ & _ & _ & _ & _ & _ & ->)].
  split; [done|]. split; [by repeat constructor|]. done.
Qed.

Lemma meta_on_existing_object_rejected_witness :
  two_args append_existing_with_meta
  ∧ object_exists local_host append_existing_with_meta
  ∧ meta_supplied local_host append_existing_with_meta
  ∧ RunCommand local_host append_existing_with_meta =
    (Returns (errorString
                "setting meta on existing append object is not supported"),
     [EvStat "log.txt"; EvOssClient "b"; EvBucket "b";
      EvIsObjectExist "app.log"]).
Proof.
  set (host := local_host). set (afc := append_existing_with_meta).
  assert (H1 : two_args afc) by reflexivity.
  assert (H2 : object_exists host afc) by reflexivity.
  assert (H3 : meta_supplied host afc) by discriminate.
  split; [exact H1|]. split; [exact H2|]. split; [exact H3|].
  destruct (meta_on_existing_object_rejected host afc H1 H2 H3)
    as (_ & _ & H).
  rewrite H; [reflexivity|].
  repeat split; try reflexivity; try discriminate.
Defined.

(** C6.  Every [AppendObject] call of a run is issued for the target
    key at [start_position]: the integer parsed from the [Content-Length]
    that [GetObjectMeta] reports when the object exists, and zero when it
    does not.  The call is issued whenever validation passes, the
    existence check and (for an existing object) the metadata call and
    the parse succeed, the file opens and the metadata options parse. *)
Theorem append_position_from_remote_length (host : Host) (afc : Command) :
  (∀ key file pos opts,
     EvAppendObject key file pos opts ∈ snd (RunCommand host afc) →
     key = object (url_of host afc) ∧ pos = start_position host afc)
  ∧ (object_exists host afc →
     start_position host afc = fst (reported_length host afc))
  ∧ (object_missing host afc → start_position host afc = 0)
  ∧ (validates host afc →
     snd (IsObjectExist host (bucket_of host afc)
            (object (url_of host afc))) = nil →
     (fst (IsObjectExist host (bucket_of host afc)
             (object (url_of host afc))) = true →
      ossMeta_of host afc = ""
      ∧ snd (GetObjectMeta host (bucket_of host afc)
               (object (url_of host afc))) = nil
      ∧ snd (reported_length host afc) = nil) →
     snd (os_OpenFile host (arg afc 0)) = nil →
     (ossMeta_of host afc ≠ "" →
      snd (parseHeaders host afc (ossMeta_of host afc) false) = nil
      ∧ snd (getOSSOptions host
               (fst (parseHeaders host afc (ossMeta_of host afc) false)))
        = nil) →
     ∃ file opts,
       EvAppendObject (object (url_of host afc)) file
         (start_position host afc) opts ∈ snd (RunCommand host afc)).
Proof.
  split; [|split; [|split]].
  - unfold RunCommand, AppendFromFile. unfold_vocabulary.
    destruct afc as [l o]. simpl.
    destruct (GetString host OptionEncodingType o) as [enc e1].
    destruct (GetString host OptionMeta o) as [meta e2]. simpl.
    destruct (l !! 1%nat) as [a1|]; [|intros ? ? ? ? H; simpl in H;
                                      by apply elem_of_nil in H].
    destruct (l !! 0%nat) as [a0|]; simpl.
    + walk; intros key file pos opts H;
        repeat (apply elem_of_cons in H as [H|H];
                [try discriminate H; injection H as -> -> -> ->; done|]);
        by apply elem_of_nil in H.
    + walk; intros key file pos opts H; by apply elem_of_nil in H.
  - unfold start_position, object_exists. by intros ->.
  - unfold start_position, object_missing. by intros ->.
  - intros (Hargs & Hurl & Hobj & Hstat & Hdir & Hsize & Hcl & Hbk)
           Hex Hmeta Hopen Hparse.
    two_arguments afc Hargs.
    revert Hurl Hobj Hstat Hdir Hsize Hcl Hbk Hex Hmeta Hopen Hparse.
    unfold RunCommand, AppendFromFile. unfold_vocabulary. simpl.
    destruct (GetString host OptionEncodingType o) as [enc e1].
    destruct (GetString host OptionMeta o) as [meta e2]. simpl.
    destruct (GetCloudUrl host s0 enc) as [url e3]. simpl.
    destruct (os_Stat host s) as [stat e4]. simpl.
    destruct (ossClient host _ (bucket url)) as [client e5]. simpl.
    destruct (client_Bucket host client (bucket url)) as [bkt e6]. simpl.
    destruct (IsObjectExist host bkt (object url)) as [isExist e7]. simpl.
    destruct (os_OpenFile host s) as [file e8]. simpl.
    intros -> Hobj -> -> Hsize -> -> -> Hmeta -> Hparse.
    apply string_nonempty_true in Hobj. rewrite Hobj. simpl.
    replace (MaxAppendObjectSize host <? Size stat) with false
      by (symmetry; apply Z.ltb_ge; lia).
    destruct isExist; simpl.
    + destruct (Hmeta eq_refl) as (-> & Hget & Hlen). simpl.
      destruct (GetObjectMeta host bkt (object url)) as [props e9].
      simpl in *. subst e9. simpl.
      destruct (strconv.ParseInt (Get props "Content-Length"))
        as [position e10].
      simpl in *. subst e10. simpl.
      destruct (AppendObject host bkt (object url) file position [Progress])
        as [newPosition e11]. simpl.
      exists file, [Progress]. destruct (is_nil e11); simpl; find_event.
    + destruct (string_nonempty meta) eqn:Em; simpl.
      * apply string_nonempty_true in Em. destruct (Hparse Em) as [Hp Hg].
        destruct (parseHeaders host _ meta false) as [metas e9].
        simpl in *. subst e9. simpl.
        destruct (getOSSOptions host metas) as [opts e10].
        simpl in *. subst e10. simpl.
        destruct (AppendObject host bkt (object url) file 0
                    (opts ++ [Progress])) as [newPosition e11]. simpl.
        exists file, (opts ++ [Progress]).
        destruct (is_nil e11); simpl; find_event.
      * destruct (AppendObject host bkt (object url) file 0 [Progress])
          as [newPosition e11]. simpl.
        exists file, [Progress]. destruct (is_nil e11); simpl; find_event.
Qed.

Lemma append_position_from_remote_length_witness :
  (object_exists local_host append_existing
   ∧ reported_length local_host append_existing = (1024, nil)
   ∧ start_position local_host append_existing = 1024
   ∧ ∃ file opts,
       EvAppendObject "app.log" file 1024 opts
       ∈ snd (RunCommand local_host append_existing))
  ∧ (object_missing local_host append_new_with_meta
     ∧ start_position local_host append_new_with_meta = 0
     ∧ ∃ file opts,
         EvAppendObject "new.log" file 0 opts
         ∈ snd (RunCommand local_host append_new_with_meta)).
Proof.
  set (host := local_host).
  destruct (append_position_from_remote_length host append_existing)
    as (_ & Hold & _ & Hrun_old).
  destruct (append_position_from_remote_length host append_new_with_meta)
    as (_ & _ & Hnew & Hrun_new).
  assert (Hex : object_exists host append_existing) by reflexivity.
  assert (Hmiss : object_missing host append_new_with_meta)
    by reflexivity.
  split.
  - split; [exact Hex|]. split; [reflexivity|].
    split; [rewrite (Hold Hex); reflexivity|].
    apply Hrun_old; try reflexivity.
    + repeat split; try reflexivity; discriminate.
    + intros _. repeat split; reflexivity.
    + intros H. by destruct H.
  - split; [exact Hmiss|]. split; [exact (Hnew Hmiss)|].
    apply Hrun_new; try reflexivity.
    + repeat split; try reflexivity; discriminate.
    + intros H. discriminate H.
    + intros _. split; reflexivity.
Defined.

End AppendFileSpec.

(** ** More on the listing loop *)

Module LcbOutputSpec.
Import Lcb LcbSpec LcbOutput.

(** What the inner loop has done when it ends: it printed the first [k]
    boxes of the page; it stopped short only because the limit was
    reached; and its counter is the old one plus [k] as long as that stays
    inside [int64]. *)
Lemma print_boxes_facts (N : Z) (boxes : list CloudBoxProperties) :
  ∀ num t, ∃ k,
    (k ≤ length boxes)%nat
    ∧ snd (print_boxes N boxes num t) = t ++ map EvPrintBox (take k boxes)
    ∧ ((k < length boxes)%nat →
       0 <= N ∧ N <= fst (print_boxes N boxes num t))
    ∧ (0 <= num → num + Z.of_nat k <= MaxInt64 →
       fst (print_boxes N boxes num t) = num + Z.of_nat k)
    ∧ (boxes ≠ [] → (0 <=? N) && (N <=? num) = false → (1 ≤ k)%nat)
    ∧ (0 <= num <= N → N <= MaxInt64 → num + Z.of_nat k <= N).
Proof.
  induction boxes as [|b boxes IH]; intros num t.
  - exists 0%nat. simpl. rewrite app_nil_r.
    repeat split; try done; try lia.
  - cbn [print_boxes].
    destruct ((0 <=? N) && (N <=? num)) eqn:Hstop.
    + exists 0%nat. simpl. rewrite app_nil_r.
      apply andb_true_iff in Hstop as [H0 HN].
      apply Z.leb_le in H0, HN.
      repeat split; try done; try lia.
    + destruct (IH (int64_add num 1) (t ++ [EvPrintBox b]))
        as (k & Hk & Htr & Hshort & Hnum & _ & Hle).
      exists (S k). rewrite Htr. cbn [length take map].
      rewrite <- app_assoc.
      split; [lia|]. split; [done|]. split; [|split; [|split]].
      * intros Hlt. apply Hshort. lia.
      * intros Hlo Hhi.
        rewrite int64_add_1 in *
          by (unfold MinInt64, MaxInt64 in *; lia).
        rewrite Hnum by lia. lia.
      * intros _ _. lia.
      * intros Hnum0 HN.
        apply andb_false_iff in Hstop as [H0|H0];
          apply Z.leb_gt in H0; [lia|].
        rewrite int64_add_1 in Hle
          by (unfold MinInt64, MaxInt64 in *; lia).
        specialize (Hle ltac:(lia) HN). lia.
Qed.

Section Cases.
Context (host : Host) (lc : Command).

Abbreviation events := (attempt_events host).
Abbreviation fails := (attempt_fails host).

(** A loop whose condition is false returns at once. *)
Lemma list_loop_exit fuel N client num pre marker t :
  (N <? 0) || (num <? N) = false →
  list_loop host lc fuel N client num pre marker t = Done nil t.
Proof. intros H. destruct fuel; simpl; by rewrite H. Qed.

(** One turn of the loop: the fetch runs out of fuel, or ends in an
    error, or delivers a page that is printed. *)
Lemma list_loop_cases fuel N client num pre marker t :
  (N <? 0) || (num <? N) = true →
  (list_loop host lc (S fuel) N client num pre marker t =
   OutOfFuel (t ++ events client [pre; marker] t (S fuel))
   ∧ ∀ k, (k < S fuel)%nat → fails client [pre; marker] t k)
  ∨ (∃ n, (n ≤ fuel)%nat
       ∧ (∀ k, (k < n)%nat → fails client [pre; marker] t k)
       ∧ fails client [pre; marker] t n
       ∧ list_loop host lc (S fuel) N client num pre marker t =
         Done (snd (attempt host client [pre; marker] t n))
              (t ++ events client [pre; marker] t (S n)))
  ∨ (∃ n lcr, (n ≤ fuel)%nat
       ∧ (∀ k, (k < n)%nat → fails client [pre; marker] t k)
       ∧ attempt host client [pre; marker] t n = (lcr, nil)
       ∧ let hdr := if (num =? 0) && (0 <? len (CloudBoxes lcr))
                    then [EvPrintHeader] else [] in
         let t2 := (t ++ events client [pre; marker] t (S n)) ++ hdr in
         let printed := print_boxes N (CloudBoxes lcr) num t2 in
         list_loop host lc (S fuel) N client num pre marker t =
         if IsTruncated lcr
         then list_loop host lc fuel N client (fst printed)
                (Prefix (lcr_Prefix lcr)) (Marker (NextMarker lcr))
                (snd printed)
         else Done nil (snd printed)).
Proof.
  intros Hcond. cbn [list_loop]. rewrite Hcond, retry_unfold.
  pose proof (loop_trace host client [pre; marker]
                (retryTimes_of host lc) (S fuel) 1 t) as Hretry.
  destruct (ossListCloudBoxesRetry_loop host (S fuel)
              (retryTimes_of host lc) client [pre; marker] 1 t)
    as [[lcr err] t1|t1].
  - destruct Hretry as (n & Hn & Hans & -> & Hfail). right.
    destruct (is_nil err) eqn:Herr; simpl negb; cbv iota.
    + right. apply is_nil_true in Herr. subst err.
      exists n, lcr. split; [lia|]. split; [done|]. split; [done|].
      cbv zeta.
      replace (if (num =? 0) && (0 <? len (CloudBoxes lcr))
               then (t ++ events client [pre; marker] t (S n))
                      ++ [EvPrintHeader]
               else t ++ events client [pre; marker] t (S n))
        with ((t ++ events client [pre; marker] t (S n))
                ++ (if (num =? 0) && (0 <? len (CloudBoxes lcr))
                    then [EvPrintHeader] else []))
        by (destruct ((num =? 0) && (0 <? len (CloudBoxes lcr)));
            [done|by rewrite app_nil_r]).
      destruct (print_boxes N (CloudBoxes lcr) num _) as [num' t3].
      simpl. by destruct (IsTruncated lcr).
    + left. exists n. split; [lia|]. split; [done|].
      split; [unfold attempt_fails; by rewrite <- Hans|].
      by rewrite <- Hans.
  - destruct Hretry as (-> & Hfail). by left.
Qed.

(** The events of [k + 1] attempts are those of [k] attempts and the
    event of attempt number [k]. *)
Lemma events_snoc client opts t k :
  events client opts t (S k) =
  events client opts t k
  ++ [EvListCloudBoxes opts (fst (attempt host client opts t k))
                       (snd (attempt host client opts t k))].
Proof.
  revert t. induction k as [|k IH]; intros t.
  - by rewrite events_S.
  - rewrite events_S, IH, answer_S. by rewrite (events_S _ _ _ t k).
Qed.

(** Among the first [m] attempts either one is the first to succeed, or
    all fail. *)
Lemma first_success client opts t (m : nat) :
  (∃ n, (n < m)%nat
        ∧ (∀ k, (k < n)%nat → fails client opts t k)
        ∧ snd (attempt host client opts t n) = nil)
  ∨ (∀ k, (k < m)%nat → fails client opts t k).
Proof.
  induction m as [|m [(n & Hn & Hf & Hs)|Hall]].
  - right. intros k Hk. lia.
  - left. exists n. split; [lia|done].
  - destruct (is_nil (snd (attempt host client opts t m))) eqn:Hm.
    + left. exists m. split; [lia|]. split; [done|by apply is_nil_true].
    + right. intros k Hk. destruct (decide (k = m)) as [->|Hne]; [done|].
      apply Hall. lia.
Qed.

(** An error returned by the loop is the answer to its last request. *)
Lemma list_loop_error fuel :
  ∀ N client num pre marker t err t',
    list_loop host lc fuel N client num pre marker t = Done err t' →
    err ≠ nil →
    ∃ t0 opts lbr,
      t' = t0 ++ [EvListCloudBoxes opts lbr err]
      ∧ ListCloudBoxes host t0 client opts = (lbr, err).
Proof.
  induction fuel as [|fuel IH]; intros N client num pre marker t err t' Hrun Herr.
  { simpl in Hrun. destruct ((N <? 0) || (num <? N)); congruence. }
  destruct ((N <? 0) || (num <? N)) eqn:Hcond; cycle 1.
  { rewrite list_loop_exit in Hrun by done. congruence. }
  destruct (list_loop_cases fuel N client num pre marker t Hcond)
    as [(H & _)|[(n & _ & _ & _ & H)|(n & lcr & _ & _ & _ & H)]];
    rewrite H in Hrun; clear H.
  - discriminate.
  - pose proof (f_equal trace_of Hrun) as Ht. cbn [trace_of] in Ht.
    assert (He : snd (attempt host client [pre; marker] t n) = err)
      by congruence.
    subst t' err.
    exists (t ++ events client [pre; marker] t n), [pre; marker],
           (fst (attempt host client [pre; marker] t n)).
    split; [by rewrite events_snoc, app_assoc|].
    unfold attempt. by destruct (ListCloudBoxes host _ client [pre; marker]).
  - cbv zeta in Hrun. destruct (IsTruncated lcr).
    + by apply IH in Hrun.
    + congruence.
Qed.

End Cases.

(** X1.  Whatever the service does, one page fetch ends after at most
    [max 1 retryTimes] attempts, all but the last of which failed, and it
    returns the answer to its last attempt. *)
Theorem retry_attempts_bounded (host : Host) (lc : Command)
    (client : Client) (opts : list oss_Option) (t : Trace) (fuel : nat) :
  retryTimes_of host lc <= MaxInt64 →
  (Z.to_nat (Z.max 1 (retryTimes_of host lc)) ≤ fuel)%nat →
  ∃ n, Z.of_nat (S n) <= Z.max 1 (retryTimes_of host lc)
       ∧ (∀ k, (k < n)%nat → attempt_fails host client opts t k)
       ∧ ossListCloudBoxesRetry host lc fuel client opts t =
         Done (attempt host client opts t n)
              (t ++ attempt_events host client opts t (S n)).
Proof.
  intros Hhi Hfuel. rewrite retry_unfold.
  set (rt := retryTimes_of host lc) in *.
  set (m := Z.to_nat (Z.max 1 rt)) in *.
  assert (Hm : (1 ≤ m)%nat) by (unfold m; lia).
  destruct (first_success host client opts t m)
    as [(n & Hn & Hf & Hs)|Hall].
  - exists n. split; [unfold m in *; lia|]. split; [done|].
    apply loop_run;
      [ lia | unfold MinInt64; lia | unfold m, MaxInt64 in *; lia
        | done | intros k Hk; unfold m in *; lia
        | left; by rewrite Hs ].
  - exists (m - 1)%nat. split; [unfold m in *; lia|].
    split; [intros k Hk; apply Hall; lia|].
    apply loop_run;
      [ lia | unfold MinInt64; lia | unfold m, MaxInt64 in *; lia
        | intros k Hk; apply Hall; lia
        | intros k Hk; unfold m in *; lia
        | right; unfold m; lia ].
Qed.

Lemma retry_attempts_bounded_witness :
  retryTimes_of flaky_host (sample_command (-1) 2 "") <= MaxInt64
  ∧ ∃ n, Z.of_nat (S n) <= 2
         ∧ ossListCloudBoxesRetry flaky_host (sample_command (-1) 2 "") 2
             sample_client sample_cursor [EvOssClient ""] =
           Done (attempt flaky_host sample_client sample_cursor
                   [EvOssClient ""] n)
                ([EvOssClient ""]
                 ++ attempt_events flaky_host sample_client sample_cursor
                      [EvOssClient ""] (S n)).
Proof.
  assert (Hhi : retryTimes_of flaky_host (sample_command (-1) 2 "")
                <= MaxInt64) by (by vm_compute).
  split; [exact Hhi|].
  destruct (retry_attempts_bounded flaky_host (sample_command (-1) 2 "")
              sample_client sample_cursor [EvOssClient ""] 2 Hhi
              ltac:(vm_compute; lia)) as (n & Hn & _ & Hrun).
  exists n. split; [exact Hn|exact Hrun].
Defined.

(** X2.  Where a non-nil error of the listing command comes from: from
    the argument or the marker (nothing has happened yet), from the
    client construction (nothing else has happened), or from the service,
    in which case it is the error the service gave to the last request
    of the run, and that request is the last event. *)
Theorem listing_error_origin (host : Host) (lc : Command) (fuel : nat)
    (err : error) (t : Trace) :
  RunCommand host lc fuel = Done err t →
  err ≠ nil →
  (t = [] ∧ ¬ (argument_parses host lc ∧ marker_decodes host lc))
  ∨ (t = [EvOssClient ""] ∧ err = snd (ossClient host lc ""))
  ∨ (∃ t0 opts lbr,
       t = t0 ++ [EvListCloudBoxes opts lbr err]
       ∧ ListCloudBoxes host t0 (fst (ossClient host lc "")) opts
         = (lbr, err)).
Proof.
  intros Hrun Herr.
  destruct (RunCommand_cases host lc fuel)
    as [(Hno & e & H & _)|[(_ & H)|(_ & H)]]; rewrite H in Hrun.
  - left. injection Hrun as <- <-. done.
  - right. left. injection Hrun as <- <-. done.
  - right. right. by apply list_loop_error in Hrun.
Qed.

Lemma listing_error_origin_witness :
  RunCommand down_host (sample_command (-1) 2 "") 3 =
  Done timeout_error
       [EvOssClient "";
        EvListCloudBoxes sample_cursor empty_page timeout_error;
        EvListCloudBoxes sample_cursor empty_page timeout_error]
  ∧ timeout_error ≠ nil
  ∧ ∃ t0 opts lbr,
      [EvOssClient "";
       EvListCloudBoxes sample_cursor empty_page timeout_error;
       EvListCloudBoxes sample_cursor empty_page timeout_error]
      = t0 ++ [EvListCloudBoxes opts lbr timeout_error].
Proof.
  assert (Hrun : RunCommand down_host (sample_command (-1) 2 "") 3 =
                 Done timeout_error
                   [EvOssClient "";
                    EvListCloudBoxes sample_cursor empty_page timeout_error;
                    EvListCloudBoxes sample_cursor empty_page timeout_error])
    by reflexivity.
  assert (Herr : timeout_error ≠ nil) by discriminate.
  split; [exact Hrun|]. split; [exact Herr|].
  destruct (listing_error_origin down_host (sample_command (-1) 2 "") 3
              _ _ Hrun Herr) as [(H & _)|[(H & _)|(t0 & opts & lbr & H & _)]].
  - discriminate H.
  - discriminate H.
  - exists t0, opts, lbr. exact H.
Defined.

(** X3.  A listing request shows in a run only if the argument, the
    marker and the client construction all passed, and then the client
    construction is the first event of the run. *)
Theorem requests_only_after_setup (host : Host) (lc : Command)
    (fuel : nat) :
  requests (trace_of (RunCommand host lc fuel)) ≠ [] →
  starts_listing host lc
  ∧ ∃ rest, trace_of (RunCommand host lc fuel) = EvOssClient "" :: rest.
Proof.
  intros Hreq.
  destruct (RunCommand_cases host lc fuel)
    as [(_ & e & H & _)|[(_ & H)|(Hstart & H)]]; rewrite H in Hreq |- *.
  - by destruct Hreq.
  - by destruct Hreq.
  - split; [done|].
    destruct (list_loop_trace host lc fuel (limitedNum_of host lc)
                (fst (ossClient host lc "")) 0
                (Prefix (prefix_of host lc)) (Marker (vmarker_of host lc))
                [EvOssClient ""]) as (ext & -> & _).
    simpl. eauto.
Qed.

Lemma requests_only_after_setup_witness :
  requests (trace_of (RunCommand two_page_host (sample_command 1 3 "") 2))
  ≠ []
  ∧ starts_listing two_page_host (sample_command 1 3 "").
Proof.
  assert (H : requests (trace_of (RunCommand two_page_host
                                    (sample_command 1 3 "") 2)) ≠ [])
    by discriminate.
  split; [exact H|].
  exact (proj1 (requests_only_after_setup two_page_host
                  (sample_command 1 3 "") 2 H)).
Defined.

(** X4.  With a limit of zero the command builds the client and returns
    at once: no listing request, nothing printed, no error. *)
Theorem limit_zero_lists_nothing (host : Host) (lc : Command)
    (fuel : nat) :
  starts_listing host lc →
  limitedNum_of host lc = 0 →
  RunCommand host lc fuel = Done nil [EvOssClient ""].
Proof.
  intros Hstart HN. rewrite RunCommand_listing by done.
  apply list_loop_exit. by rewrite HN.
Qed.

Lemma limit_zero_lists_nothing_witness :
  starts_listing two_page_host (sample_command 0 3 "")
  ∧ limitedNum_of two_page_host (sample_command 0 3 "") = 0
  ∧ RunCommand two_page_host (sample_command 0 3 "") 0
    = Done nil [EvOssClient ""].
Proof.
  assert (H1 : starts_listing two_page_host (sample_command 0 3 ""))
    by (by repeat split).
  split; [exact H1|]. split; [reflexivity|].
  exact (limit_zero_lists_nothing two_page_host (sample_command 0 3 "") 0
           H1 eq_refl).
Defined.

(** *** Rows, served boxes and the cursor *)

Lemma served_app (a b : Trace) : served (a ++ b) = served a ++ served b.
Proof. unfold served. by rewrite map_app, concat_app. Qed.

Lemma served_one (e : Event) : served [e] = served_by e.
Proof. unfold served. simpl. by rewrite app_nil_r. Qed.

Lemma lines_app (a b : Trace) : lines (a ++ b) = lines a ++ lines b.
Proof. unfold lines. apply filter_app. Qed.

Lemma rows_of_boxes (boxes : list CloudBoxProperties) :
  rows (map EvPrintBox boxes) = map EvPrintBox boxes
  ∧ lines (map EvPrintBox boxes) = map EvPrintBox boxes
  ∧ served (map EvPrintBox boxes) = []
  ∧ requests (map EvPrintBox boxes) = [].
Proof.
  induction boxes as [|b boxes (IH1 & IH2 & IH3 & IH4)]; [done|].
  unfold rows, lines, served, requests in *. simpl.
  rewrite !filter_cons. simpl. by rewrite IH1, IH2, IH3, IH4.
Qed.

Lemma quiet_requests (l : Trace) :
  Forall (λ e, is_request e = true) l → rows l = [] ∧ lines l = [].
Proof.
  induction 1 as [|e l He _ [IH1 IH2]]; [done|].
  unfold rows, lines in *. rewrite !filter_cons.
  destruct e; try discriminate He. simpl. by rewrite IH1, IH2.
Qed.

Section Attempts.
Context (host : Host) (client : Client) (opts : list oss_Option).

Lemma events_quiet t k :
  rows (attempt_events host client opts t k) = []
  ∧ lines (attempt_events host client opts t k) = [].
Proof.
  apply quiet_requests.
  eapply Forall_impl; [apply events_same_options|]. by intros e [? _].
Qed.

Lemma served_failed lbr err :
  is_nil err = false → served_by (EvListCloudBoxes opts lbr err) = [].
Proof. by destruct err. Qed.

Lemma next_cursor_failed lbr err :
  is_nil err = false → next_cursor (EvListCloudBoxes opts lbr err) = opts.
Proof. by destruct err. Qed.

Lemma events_served_failed t k :
  (∀ j, (j < k)%nat → attempt_fails host client opts t j) →
  served (attempt_events host client opts t k) = [].
Proof.
  induction k as [|k IH]; intros Hf; [done|].
  rewrite events_snoc, served_app, IH by (intros j Hj; apply Hf; lia).
  rewrite served_one, served_failed; [done|]. apply Hf. lia.
Qed.

Lemma events_served_success t n lcr :
  (∀ j, (j < n)%nat → attempt_fails host client opts t j) →
  attempt host client opts t n = (lcr, nil) →
  served (attempt_events host client opts t (S n)) = CloudBoxes lcr.
Proof.
  intros Hf Hans.
  rewrite events_snoc, served_app, events_served_failed, Hans by done.
  by rewrite served_one.
Qed.

End Attempts.

Section Invariants.
Context (host : Host) (lc : Command).

Abbreviation run := (list_loop host lc).

Lemma header_quiet (num : Z) (boxes : list CloudBoxProperties) :
  let hdr : Trace := if (num =? 0) && (0 <? len boxes)
                     then [EvPrintHeader] else [] in
  rows hdr = [] ∧ served hdr = [] ∧ requests hdr = [].
Proof. simpl. by destruct ((num =? 0) && (0 <? len boxes)). Qed.

(** The rows never outnumber a limit that is not negative. *)
Lemma list_loop_rows_le fuel :
  ∀ N client num pre marker t,
    0 <= N <= MaxInt64 → 0 <= num <= N → len (rows t) = num →
    len (rows (trace_of (run fuel N client num pre marker t))) <= N.
Proof.
  induction fuel as [|fuel IH]; intros N client num pre marker t HN Hnum Hrows.
  { simpl. destruct ((N <? 0) || (num <? N)); simpl; lia. }
  destruct ((N <? 0) || (num <? N)) eqn:Hcond; cycle 1.
  { rewrite list_loop_exit by done. simpl. lia. }
  destruct (list_loop_cases host lc fuel N client num pre marker t Hcond)
    as [(H & _)|[(n & _ & _ & _ & H)|(n & lcr & _ & _ & _ & H)]];
    rewrite H; clear H; cbn [trace_of].
  - rewrite rows_app, (proj1 (events_quiet _ _ _ _ _)), app_nil_r. lia.
  - rewrite rows_app, (proj1 (events_quiet _ _ _ _ _)), app_nil_r. lia.
  - cbv zeta.
    destruct (header_quiet num (CloudBoxes lcr)) as (Hh & _ & _).
    destruct (print_boxes_facts N (CloudBoxes lcr) num
                ((t ++ attempt_events host client [pre; marker] t (S n))
                 ++ (if (num =? 0) && (0 <? len (CloudBoxes lcr))
                     then [EvPrintHeader] else [])))
      as (k & Hk & Htr & _ & Hnum' & _ & Hle).
    specialize (Hle Hnum ltac:(lia)).
    specialize (Hnum' ltac:(lia) ltac:(lia)).
    assert (Hlen : len (rows (snd (print_boxes N (CloudBoxes lcr) num
                ((t ++ attempt_events host client [pre; marker] t (S n))
                 ++ (if (num =? 0) && (0 <? len (CloudBoxes lcr))
                     then [EvPrintHeader] else []))))) = num + Z.of_nat k).
    { rewrite Htr, !rows_app, Hh, (proj1 (events_quiet _ _ _ _ _)),
        (proj1 (rows_of_boxes _)), !app_nil_r.
      unfold len in *. rewrite length_app, length_map, length_take. lia. }
    destruct (IsTruncated lcr); cbn [trace_of]; [|lia].
    apply IH; [done| |]; rewrite Hnum'; [lia|done].
Qed.

(** The rows are, in order, the first so many of the boxes served. *)
Lemma list_loop_rows_served fuel :
  ∀ N client num pre marker t,
  ∃ ext k,
    trace_of (run fuel N client num pre marker t) = t ++ ext
    ∧ rows ext = map EvPrintBox (take k (served ext)).
Proof.
  induction fuel as [|fuel IH]; intros N client num pre marker t.
  { exists [], 0%nat. rewrite app_nil_r. split; [|done].
    simpl. by destruct ((N <? 0) || (num <? N)). }
  destruct ((N <? 0) || (num <? N)) eqn:Hcond; cycle 1.
  { exists [], 0%nat. rewrite app_nil_r, list_loop_exit by done. done. }
  destruct (list_loop_cases host lc fuel N client num pre marker t Hcond)
    as [(H & _)|[(n & _ & _ & _ & H)|(n & lcr & _ & Hf & Hans & H)]];
    rewrite H; clear H; cbn [trace_of].
  - eexists _, 0%nat. split; [done|].
    by rewrite (proj1 (events_quiet _ _ _ _ _)).
  - eexists _, 0%nat. split; [done|].
    by rewrite (proj1 (events_quiet _ _ _ _ _)).
  - cbv zeta.
    destruct (header_quiet num (CloudBoxes lcr)) as (Hh & Hhs & _).
    set (evs := attempt_events host client [pre; marker] t (S n)) in *.
    set (hdr := if (num =? 0) && (0 <? len (CloudBoxes lcr))
                then [EvPrintHeader] else []) in *.
    destruct (print_boxes_facts N (CloudBoxes lcr) num ((t ++ evs) ++ hdr))
      as (k & Hk & Htr & Hshort & _).
    set (shown := map EvPrintBox (take k (CloudBoxes lcr))) in *.
    assert (Hq : rows evs = []) by apply events_quiet.
    assert (Hs : served evs = CloudBoxes lcr)
      by (by apply events_served_success).
    assert (Hrows : rows (evs ++ hdr ++ shown) = shown).
    { rewrite !rows_app, Hh, Hq. apply rows_of_boxes. }
    assert (Hserved : served (evs ++ hdr ++ shown) = CloudBoxes lcr).
    { rewrite !served_app, Hhs, Hs. unfold shown.
      destruct (rows_of_boxes (take k (CloudBoxes lcr))) as (_ & _ & -> & _).
      by rewrite !app_nil_r. }
    assert (Hstop : ∃ ext' k',
      trace_of (if IsTruncated lcr
                then run fuel N client
                       (fst (print_boxes N (CloudBoxes lcr) num
                               ((t ++ evs) ++ hdr)))
                       (Prefix (lcr_Prefix lcr)) (Marker (NextMarker lcr))
                       (snd (print_boxes N (CloudBoxes lcr) num
                               ((t ++ evs) ++ hdr)))
                else Done nil (snd (print_boxes N (CloudBoxes lcr) num
                                      ((t ++ evs) ++ hdr))))
      = snd (print_boxes N (CloudBoxes lcr) num ((t ++ evs) ++ hdr)) ++ ext'
      ∧ rows ext' = map EvPrintBox (take k' (served ext'))
      ∧ ((k < length (CloudBoxes lcr))%nat → ext' = [])).
    { destruct (IsTruncated lcr).
      - destruct (decide (k < length (CloudBoxes lcr))%nat) as [Hlt|Hge].
        + exists [], 0%nat. rewrite app_nil_r.
          destruct (Hshort Hlt) as [H0 HN].
          rewrite list_loop_exit; [done|].
          apply orb_false_iff. rewrite Z.ltb_ge, Z.ltb_ge. lia.
        + destruct (IH N client
                      (fst (print_boxes N (CloudBoxes lcr) num
                              ((t ++ evs) ++ hdr)))
                      (Prefix (lcr_Prefix lcr)) (Marker (NextMarker lcr))
                      (snd (print_boxes N (CloudBoxes lcr) num
                              ((t ++ evs) ++ hdr))))
            as (ext' & k' & Hext & Hrows').
          exists ext', k'. split; [done|]. split; [done|]. intros; lia.
      - exists [], 0%nat. by rewrite app_nil_r. }
    destruct Hstop as (ext' & k' & -> & Hrows' & Hcut). rewrite Htr.
    exists ((evs ++ hdr ++ shown) ++ ext').
    destruct (decide (k < length (CloudBoxes lcr))%nat) as [Hlt|Hge].
    + exists k. rewrite (Hcut Hlt), !app_nil_r.
      split; [by rewrite <- !app_assoc|]. by rewrite Hrows, Hserved.
    + exists (length (CloudBoxes lcr) + k')%nat.
      split; [by rewrite <- !app_assoc|].
      rewrite rows_app, served_app, Hrows, Hserved, Hrows'.
      unfold shown. rewrite firstn_all2 by lia.
      rewrite take_app_add', map_app; done.
Qed.

(** Each request after the first carries the cursor the run holds after
    the request before it. *)
Lemma list_loop_cursor fuel :
  ∀ N client num pre marker t,
  ∃ ext,
    trace_of (run fuel N client num pre marker t) = t ++ ext
    ∧ (∀ e, requests ext !! 0%nat = Some e →
            request_options e = [pre; marker])
    ∧ (∀ i e1 e2, requests ext !! i = Some e1 →
                  requests ext !! S i = Some e2 →
                  request_options e2 = next_cursor e1).
Proof.
  assert (Hnone : ∀ o t, trace_of (A:=error) o = t →
            ∃ ext, trace_of o = t ++ ext
              ∧ (∀ e, requests ext !! 0%nat = Some e → False)
              ∧ (∀ i e1 e2, requests ext !! i = Some e1 →
                            requests ext !! S i = Some e2 → False)).
  { intros o t ->. exists []. rewrite app_nil_r.
    split; [done|]. split; intros; discriminate. }
  assert (Hattempts : ∀ client pre marker t m i e1 e2,
            (∀ k, (k < m)%nat →
                  attempt_fails host client [pre; marker] t k) →
            attempt_events host client [pre; marker] t (S m) !! i = Some e1 →
            attempt_events host client [pre; marker] t (S m) !! S i = Some e2 →
            request_options e2 = next_cursor e1).
  { intros client pre marker t m i e1 e2 Hf H1 H2.
    assert (S i < S m)%nat as Hi.
    { apply lookup_lt_Some in H2. by rewrite events_length in H2. }
    rewrite events_lookup in H1, H2 by lia.
    injection H1 as <-. injection H2 as <-.
    rewrite next_cursor_failed; [done|]. apply Hf. lia. }
  induction fuel as [|fuel IH]; intros N client num pre marker t.
  { destruct (Hnone (run 0 N client num pre marker t) t)
      as (ext & H1 & H2 & H3).
    { simpl. by destruct ((N <? 0) || (num <? N)). }
    exists ext. split; [done|].
    split; [intros e He|intros i e1 e2 He1 He2]; exfalso; eauto. }
  destruct ((N <? 0) || (num <? N)) eqn:Hcond; cycle 1.
  { exists []. rewrite app_nil_r, list_loop_exit by done.
    split; [done|]. split; intros; discriminate. }
  destruct (list_loop_cases host lc fuel N client num pre marker t Hcond)
    as [(H & Hf)|[(n & _ & Hf & Hfn & H)|(n & lcr & _ & Hf & Hans & H)]];
    rewrite H; clear H; cbn [trace_of].
  - eexists. split; [done|]. rewrite events_requests. split.
    + intros e He. rewrite events_lookup in He by lia. by injection He as <-.
    + intros i e1 e2 H1 H2.
      apply (Hattempts client pre marker t fuel i e1 e2); [|done|done].
      intros k Hk. apply Hf. lia.
  - eexists. split; [done|]. rewrite events_requests. split.
    + intros e He. rewrite events_lookup in He by lia. by injection He as <-.
    + intros i e1 e2 H1 H2.
      by apply (Hattempts client pre marker t n i e1 e2).
  - cbv zeta.
    destruct (header_quiet num (CloudBoxes lcr)) as (_ & _ & Hh).
    set (evs := attempt_events host client [pre; marker] t (S n)) in *.
    set (hdr := if (num =? 0) && (0 <? len (CloudBoxes lcr))
                then [EvPrintHeader] else []) in *.
    destruct (print_boxes_facts N (CloudBoxes lcr) num ((t ++ evs) ++ hdr))
      as (k & _ & Htr & _).
    set (shown := map EvPrintBox (take k (CloudBoxes lcr))) in *.
    assert (Hlen : length evs = S n) by apply events_length.
    assert (Hlast : evs !! n = Some (EvListCloudBoxes [pre; marker] lcr nil)).
    { unfold evs. rewrite events_lookup by lia. by rewrite Hans. }
    assert (Hreq : ∀ ext', requests ((evs ++ hdr ++ shown) ++ ext')
                           = evs ++ requests ext').
    { intros ext'. rewrite !requests_app, Hh. unfold shown.
      destruct (rows_of_boxes (take k (CloudBoxes lcr))) as (_ & _ & _ & ->).
      unfold evs. rewrite events_requests. by rewrite !app_nil_r. }
    assert (Hfirst : ∀ ext' e,
              (evs ++ requests ext') !! 0%nat = Some e →
              request_options e = [pre; marker]).
    { intros ext' e He. rewrite lookup_app_l in He by lia.
      unfold evs in He. rewrite events_lookup in He by lia.
      by injection He as <-. }
    destruct (IsTruncated lcr); cbn [trace_of].
    + destruct (IH N client
                  (fst (print_boxes N (CloudBoxes lcr) num
                          ((t ++ evs) ++ hdr)))
                  (Prefix (lcr_Prefix lcr)) (Marker (NextMarker lcr))
                  (snd (print_boxes N (CloudBoxes lcr) num
                          ((t ++ evs) ++ hdr))))
        as (ext' & -> & Hfirst' & Hadj'). rewrite Htr.
      exists ((evs ++ hdr ++ shown) ++ ext').
      split; [by rewrite <- !app_assoc|]. rewrite Hreq.
      split; [apply Hfirst|].
      intros i e1 e2 H1 H2.
      destruct (decide (S i < S n)%nat) as [Hin|Hout].
      * rewrite lookup_app_l in H1, H2 by lia.
        by apply (Hattempts client pre marker t n i e1 e2).
      * destruct (decide (i = n)) as [->|Hne].
        -- rewrite lookup_app_l in H1 by lia.
           rewrite lookup_app_r in H2 by lia.
           rewrite Hlast in H1. injection H1 as <-.
           replace (S n - length evs)%nat with 0%nat in H2 by lia.
           by apply Hfirst'.
        -- rewrite lookup_app_r in H1, H2 by lia.
           replace (S i - length evs)%nat
             with (S (i - length evs)) in H2 by lia.
           by apply (Hadj' _ _ _ H1 H2).
    + rewrite Htr. exists (evs ++ hdr ++ shown).
      split; [by rewrite <- !app_assoc|].
      specialize (Hreq []). rewrite !app_nil_r in Hreq. rewrite Hreq.
      split.
      * intros e He. apply (Hfirst [] e). by rewrite app_nil_r.
      * intros i e1 e2 H1 H2.
        by apply (Hattempts client pre marker t n i e1 e2).
Qed.

(** The header line is printed once, right before the first row, and
    not at all while there is no row; as long as the row counter stays
    inside [int64]. *)
Lemma list_loop_lines fuel :
  ∀ N client num pre marker t,
    len (rows t) = num →
    lines t = expected_lines (rows t) →
    len (rows (trace_of (run fuel N client num pre marker t))) <= MaxInt64 →
    lines (trace_of (run fuel N client num pre marker t)) =
    expected_lines (rows (trace_of (run fuel N client num pre marker t))).
Proof.
  induction fuel as [|fuel IH]; intros N client num pre marker t Hnum Hshape.
  { simpl. by destruct ((N <? 0) || (num <? N)). }
  destruct ((N <? 0) || (num <? N)) eqn:Hcond; cycle 1.
  { by rewrite list_loop_exit. }
  destruct (list_loop_cases host lc fuel N client num pre marker t Hcond)
    as [(H & _)|[(n & _ & _ & _ & H)|(n & lcr & _ & _ & _ & H)]];
    rewrite H; clear H; cbn [trace_of].
  - intros _. destruct (events_quiet host client [pre; marker] t (S fuel))
      as [Hr Hl].
    by rewrite rows_app, lines_app, Hr, Hl, !app_nil_r.
  - intros _. destruct (events_quiet host client [pre; marker] t (S n))
      as [Hr Hl].
    by rewrite rows_app, lines_app, Hr, Hl, !app_nil_r.
  - cbv zeta.
    destruct (events_quiet host client [pre; marker] t (S n)) as [Hr Hl].
    set (evs := attempt_events host client [pre; marker] t (S n)) in *.
    set (hdr := if (num =? 0) && (0 <? len (CloudBoxes lcr))
                then [EvPrintHeader] else []).
    destruct (print_boxes_facts N (CloudBoxes lcr) num ((t ++ evs) ++ hdr))
      as (k & Hk & Htr & _ & Hnum' & Hone & _).
    set (shown := map EvPrintBox (take k (CloudBoxes lcr))) in *.
    destruct (rows_of_boxes (take k (CloudBoxes lcr)))
      as (Hsr & Hsl & _ & _). fold shown in Hsr, Hsl.
    assert (Hhr : rows hdr = [] ∧ lines hdr = hdr).
    { unfold hdr. by destruct ((num =? 0) && (0 <? len (CloudBoxes lcr))). }
    destruct Hhr as [Hhr Hhl].
    assert (Hrows3 : rows (snd (print_boxes N (CloudBoxes lcr) num
                                  ((t ++ evs) ++ hdr))) = rows t ++ shown).
    { by rewrite Htr, !rows_app, Hr, Hhr, Hsr, !app_nil_r. }
    assert (Hlines3 : lines (snd (print_boxes N (CloudBoxes lcr) num
                                    ((t ++ evs) ++ hdr)))
                      = lines t ++ hdr ++ shown).
    { rewrite Htr, !lines_app, Hl, Hhl, Hsl. by rewrite app_nil_r, app_assoc. }
    assert (Hlen3 : len (rows t ++ shown) = num + Z.of_nat k).
    { unfold len, shown in *.
      rewrite length_app, length_map, length_take. lia. }
    assert (Hshape3 : lines t ++ hdr ++ shown
                      = expected_lines (rows t ++ shown)).
    { unfold hdr.
      destruct ((num =? 0) && (0 <? len (CloudBoxes lcr))) eqn:Hh.
      - apply andb_true_iff in Hh as [H0 Hb].
        apply Z.eqb_eq in H0. apply Z.ltb_lt in Hb. subst num.
        assert (rows t = []) as Hnil
          by (apply length_zero_iff_nil; unfold len in *; lia).
        rewrite Hnil in Hshape |- *. rewrite Hshape. simpl.
        assert (1 ≤ k)%nat as Hk1.
        { apply Hone.
          - intros Hnil'. rewrite Hnil' in Hb. unfold len in Hb.
            simpl in Hb. lia.
          - apply orb_true_iff in Hcond. rewrite !Z.ltb_lt in Hcond.
            apply andb_false_iff. rewrite !Z.leb_gt. lia. }
        unfold shown. destruct (CloudBoxes lcr) as [|b bs];
          [unfold len in Hb; simpl in Hb; lia|].
        destruct k; [lia|]. done.
      - simpl. destruct (rows t) as [|r rs] eqn:Hrt.
        + assert (num = 0) by (unfold len in *; simpl in *; lia). subst num.
          simpl in Hh. apply Z.ltb_ge in Hh.
          assert (CloudBoxes lcr = []) as Hnil
            by (apply length_zero_iff_nil; unfold len in *; lia).
          unfold shown. rewrite Hnil, take_nil. simpl.
          by rewrite Hshape.
        + by rewrite Hshape. }
    destruct (IsTruncated lcr); cbn [trace_of].
    + intros Hfit. apply IH; [| |done].
      * destruct (list_loop_trace host lc fuel N client
                    (fst (print_boxes N (CloudBoxes lcr) num
                            ((t ++ evs) ++ hdr)))
                    (Prefix (lcr_Prefix lcr)) (Marker (NextMarker lcr))
                    (snd (print_boxes N (CloudBoxes lcr) num
                            ((t ++ evs) ++ hdr))))
          as (ext' & Hext & _).
        rewrite Hext, rows_app, Hrows3 in Hfit.
        rewrite Hrows3, Hlen3. symmetry. apply Hnum'.
        -- unfold len in Hnum. lia.
        -- unfold len in *. rewrite !length_app in Hfit.
           rewrite length_app in Hlen3. lia.
      * by rewrite Hlines3, Hrows3.
    + intros _. by rewrite Hlines3, Hrows3.
Qed.

End Invariants.

(** X5.  However the service answers and wherever a run is cut off, the
    rows printed never outnumber a limit that is not negative. *)
Theorem rows_never_exceed_limit (host : Host) (lc : Command) (fuel : nat) :
  0 <= limitedNum_of host lc <= MaxInt64 →
  len (rows (trace_of (RunCommand host lc fuel))) <= limitedNum_of host lc.
Proof.
  intros HN.
  destruct (RunCommand_cases host lc fuel)
    as [(_ & e & -> & _)|[(_ & ->)|(_ & ->)]].
  - change (0 <= limitedNum_of host lc). lia.
  - change (0 <= limitedNum_of host lc). lia.
  - apply list_loop_rows_le; [done|lia|done].
Qed.

Lemma rows_never_exceed_limit_witness :
  0 <= limitedNum_of two_page_host (sample_command 1 3 "") <= MaxInt64
  ∧ len (rows (trace_of (RunCommand two_page_host
                           (sample_command 1 3 "") 5))) <= 1.
Proof.
  assert (H : 0 <= limitedNum_of two_page_host (sample_command 1 3 "")
              <= MaxInt64) by (by vm_compute).
  split; [exact H|].
  exact (rows_never_exceed_limit two_page_host (sample_command 1 3 "") 5 H).
Defined.

(** X6.  The rows of a run are, in order and without gaps, the first so
    many of the cloud boxes that the service handed over in its
    successful answers. *)
Theorem rows_are_served_boxes_in_order (host : Host) (lc : Command)
    (fuel : nat) :
  ∃ k,
    rows (trace_of (RunCommand host lc fuel)) =
    map EvPrintBox (take k (served (trace_of (RunCommand host lc fuel)))).
Proof.
  destruct (RunCommand_cases host lc fuel)
    as [(_ & e & -> & _)|[(_ & ->)|(_ & ->)]];
    [by exists 0%nat|by exists 0%nat|].
  destruct (list_loop_rows_served host lc fuel (limitedNum_of host lc)
              (fst (ossClient host lc "")) 0
              (Prefix (prefix_of host lc)) (Marker (vmarker_of host lc))
              [EvOssClient ""]) as (ext & k & -> & Hrows).
  exists k. by rewrite rows_app, served_app.
Qed.

(** X7.  The cursor moves as the answers say: a request that follows a
    successful one carries the prefix and the next marker of that page,
    and a request that follows a failed one carries the same options
    again. *)
Theorem cursor_follows_answers (host : Host) (lc : Command) (fuel : nat)
    (i : nat) (e1 e2 : Event) :
  requests (trace_of (RunCommand host lc fuel)) !! i = Some e1 →
  requests (trace_of (RunCommand host lc fuel)) !! S i = Some e2 →
  request_options e2 = next_cursor e1.
Proof.
  destruct (RunCommand_cases host lc fuel)
    as [(_ & e & -> & _)|[(_ & ->)|(_ & ->)]]; try done.
  destruct (list_loop_cursor host lc fuel (limitedNum_of host lc)
              (fst (ossClient host lc "")) 0
              (Prefix (prefix_of host lc)) (Marker (vmarker_of host lc))
              [EvOssClient ""]) as (ext & -> & _ & Hadj).
  rewrite requests_app.
  change (requests [EvOssClient ""]) with ([] : Trace). simpl.
  apply Hadj.
Qed.

Lemma cursor_follows_answers_witness :
  requests (trace_of (RunCommand bumpy_host (sample_command (-1) 3 "") 5))
    !! 0%nat = Some (EvListCloudBoxes sample_cursor page1 nil)
  ∧ requests (trace_of (RunCommand bumpy_host (sample_command (-1) 3 "") 5))
      !! 1%nat
    = Some (EvListCloudBoxes [Prefix "cb"; Marker "m1"] empty_page
              timeout_error)
  ∧ requests (trace_of (RunCommand bumpy_host (sample_command (-1) 3 "") 5))
      !! 2%nat
    = Some (EvListCloudBoxes [Prefix "cb"; Marker "m1"] page2 nil)
  ∧ request_options
      (EvListCloudBoxes [Prefix "cb"; Marker "m1"] page2 nil)
    = next_cursor (EvListCloudBoxes [Prefix "cb"; Marker "m1"] empty_page
                     timeout_error).
Proof.
  split; [reflexivity|]. split; [reflexivity|]. split; [reflexivity|].
  exact (cursor_follows_answers bumpy_host (sample_command (-1) 3 "") 5 1
           _ _ eq_refl eq_refl).
Defined.

(** X8.  The header line is written exactly when a row is written, once,
    directly before the first row: stdout holds nothing, or the header
    followed by the rows.  The row count is assumed to fit the [int64]
    counter. *)
Theorem header_once_before_rows (host : Host) (lc : Command) (fuel : nat) :
  len (rows (trace_of (RunCommand host lc fuel))) <= MaxInt64 →
  lines (trace_of (RunCommand host lc fuel)) =
  expected_lines (rows (trace_of (RunCommand host lc fuel))).
Proof.
  destruct (RunCommand_cases host lc fuel)
    as [(_ & e & -> & _)|[(_ & ->)|(_ & ->)]]; try done.
  by apply list_loop_lines.
Qed.

Lemma header_once_before_rows_witness :
  len (rows (trace_of (RunCommand two_page_host
                         (sample_command (-1) 3 "") 5))) <= MaxInt64
  ∧ lines (trace_of (RunCommand two_page_host
                       (sample_command (-1) 3 "") 5))
    = [EvPrintHeader; EvPrintBox (box "cb-1"); EvPrintBox (box "cb-2");
       EvPrintBox (box "cb-3")].
Proof.
  assert (H : len (rows (trace_of (RunCommand two_page_host
                (sample_command (-1) 3 "") 5))) <= MaxInt64)
    by (by vm_compute).
  split; [exact H|].
  rewrite (header_once_before_rows two_page_host
             (sample_command (-1) 3 "") 5 H).
  reflexivity.
Defined.

End LcbOutputSpec.

(** ** More on the append command *)

Module AppendOutputSpec.
Import AppendFile AppendFileSpec AppendOutput.

Ltac unfold_output :=
  unfold local_checks_pass, append_options, opened in *;
  unfold_vocabulary.

(** Take a membership in an explicit trace apart, event by event. *)
Ltac each_event H :=
  repeat (apply elem_of_cons in H as [H|H]; [try discriminate H|]);
  try (by apply elem_of_nil in H).

(** Open [RunCommand] on a command line of any length. *)
Ltac open_run afc :=
  let l := fresh "l" in
  let o := fresh "o" in
  unfold RunCommand, AppendFromFile; unfold_output;
  destruct afc as [l o]; simpl;
  destruct (GetString _ OptionEncodingType o) as [? ?];
  destruct (GetString _ OptionMeta o) as [? ?]; simpl;
  destruct (l !! 1%nat) as [?|]; simpl;
  [destruct (l !! 0%nat) as [?|]; simpl|].

(** X9.  A run talks to the service at most three times, never twice for
    the same purpose and always about the target key: the existence
    check, then the metadata call, then a single append. *)
Theorem service_calls_once_in_order (host : Host) (afc : Command) :
  let E := EvIsObjectExist (object (url_of host afc)) in
  let G := EvGetObjectMeta (object (url_of host afc)) in
  let calls := service_calls (snd (RunCommand host afc)) in
  calls = [] ∨ calls = [E] ∨ calls = [E; G]
  ∨ (∃ file pos opts,
       calls = [E; EvAppendObject (object (url_of host afc)) file pos opts])
  ∨ (∃ file pos opts,
       calls = [E; G;
                EvAppendObject (object (url_of host afc)) file pos opts]).
Proof.
  open_run afc; walk; eauto 12.
Qed.

(** Turn the tests met on the way into facts about the answers. *)
Ltac facts :=
  repeat match goal with
         | H : is_nil ?e = true |- _ => apply is_nil_true in H; subst e
         | H : is_nil ?e = false |- _ => apply is_nil_false in H
         | H : string_nonempty _ = true |- _ =>
             apply string_nonempty_true in H
         | H : string_nonempty _ = false |- _ =>
             apply string_nonempty_false in H
         | H : (_ <? _) = false |- _ => apply Z.ltb_ge in H
         | H : (_ <? _) = true |- _ => apply Z.ltb_lt in H
         | H : negb _ = true |- _ => apply negb_true_iff in H
         | H : negb _ = false |- _ => apply negb_false_iff in H
         | H : _ && _ = true |- _ => apply andb_true_iff in H as [? ?]
         end.

(** Drop the paths on which one test was answered both ways. *)
Ltac sound := try (exfalso; congruence).

(** X10.  The local file is opened at most once, under the path given as
    first argument, and a handle that was obtained is closed by the end
    of the run on every path: the close is the last event.  When the open
    fails its error is returned and there is nothing to close. *)
Theorem file_closed_on_every_path (host : Host) (afc : Command) :
  (∀ name, EvOpenFile name ∈ snd (RunCommand host afc) →
     name = arg afc 0
     ∧ (snd (opened host afc) = nil →
        last (snd (RunCommand host afc))
        = Some (EvFileClose (fst (opened host afc)))
        ∧ List.filter is_close (snd (RunCommand host afc))
          = [EvFileClose (fst (opened host afc))])
     ∧ (snd (opened host afc) ≠ nil →
        last (snd (RunCommand host afc)) = Some (EvOpenFile name)
        ∧ fst (RunCommand host afc) = Returns (snd (opened host afc))))
  ∧ (∀ file, EvFileClose file ∈ snd (RunCommand host afc) →
       EvOpenFile (arg afc 0) ∈ snd (RunCommand host afc)
       ∧ file = fst (opened host afc)
       ∧ snd (opened host afc) = nil)
  ∧ (List.filter is_open (snd (RunCommand host afc)) = []
     ∨ List.filter is_open (snd (RunCommand host afc))
       = [EvOpenFile (arg afc 0)]).
Proof.
  split; [|split].
  - open_run afc; walk; sound; intros name H; each_event H;
      injection H as ->; facts;
      (split; [done|]); split; intros Hopen; try done; by destruct Hopen.
  - open_run afc; walk; sound; intros file H; each_event H;
      injection H as ->; facts;
      (split; [find_event|]); done.
  - open_run afc; walk; sound; eauto.
Qed.

Lemma file_closed_on_every_path_witness :
  EvOpenFile "log.txt" ∈ snd (RunCommand local_host append_existing)
  ∧ snd (opened local_host append_existing) = nil
  ∧ last (snd (RunCommand local_host append_existing))
    = Some (EvFileClose (mkFile "log.txt"))
  ∧ List.filter is_open (snd (RunCommand local_host append_existing))
    = [EvOpenFile "log.txt"].
Proof.
  assert (Hin : EvOpenFile "log.txt"
                ∈ snd (RunCommand local_host append_existing))
    by (vm_compute; find_event).
  split; [exact Hin|]. split; [reflexivity|].
  destruct (file_closed_on_every_path local_host append_existing)
    as (Hopen & _ & Honce).
  destruct (Hopen _ Hin) as (_ & Hclose & _).
  split; [exact (proj1 (Hclose eq_refl))|].
  destruct Honce as [Hnone|Hone]; [|exact Hone].
  exfalso. apply (f_equal (@length Event)) in Hnone. discriminate Hnone.
Defined.

(** X11.  The summary line is printed exactly when the command returns
    no error.  It shows the size [os.Stat] reported and the length the
    append call returned; and whenever the append call is made, what the
    command returns is the error of that call. *)
Theorem summary_iff_success (host : Host) (afc : Command) :
  (fst (RunCommand host afc) = Returns nil ↔
   ∃ fs np, EvPrintSummary fs np ∈ snd (RunCommand host afc))
  ∧ (∀ fs np, EvPrintSummary fs np ∈ snd (RunCommand host afc) →
       fs = Size (stat_of host afc)
       ∧ ∃ file pos opts,
           EvAppendObject (object (url_of host afc)) file pos opts
             ∈ snd (RunCommand host afc)
           ∧ AppendObject host (bucket_of host afc)
               (object (url_of host afc)) file pos opts = (np, nil))
  ∧ (∀ key file pos opts,
       EvAppendObject key file pos opts ∈ snd (RunCommand host afc) →
       fst (RunCommand host afc) =
       Returns (snd (AppendObject host (bucket_of host afc) key file pos
                       opts))).
Proof.
  split; [|split].
  - open_run afc; walk; sound; facts;
      (split; [simpl; intros Hret; try discriminate Hret;
               try congruence;
               eexists _, _; find_event
              |intros (fs & np & Hin); each_event Hin]); done.
  - open_run afc; walk; sound; intros fs np H; each_event H;
      injection H as -> ->; facts; (split; [done|]);
      eexists _, _, _; (split; [find_event|]);
      match goal with
      | H : AppendObject _ _ _ _ _ _ = _ |- _ => by rewrite H
      end.
  - open_run afc; walk; sound; intros key file pos opts H; each_event H;
      injection H as -> -> -> ->; facts;
      match goal with
      | H : AppendObject _ _ _ _ _ _ = _ |- _ => by rewrite H
      end.
Qed.

Lemma summary_iff_success_witness :
  fst (RunCommand local_host append_existing) = Returns nil
  ∧ ∃ fs np, EvPrintSummary fs np
             ∈ snd (RunCommand local_host append_existing)
             ∧ fs = 300.
Proof.
  assert (Hret : fst (RunCommand local_host append_existing) = Returns nil)
    by reflexivity.
  split; [exact Hret|].
  destruct (summary_iff_success local_host append_existing)
    as (Hiff & Hshown & _).
  destruct (proj1 Hiff Hret) as (fs & np & Hin).
  exists fs, np. split; [exact Hin|].
  exact (proj1 (Hshown fs np Hin)).
Defined.

(** X12.  Nothing but [os.Stat] happens unless the target URL is
    accepted, the object key is not empty, the path is an existing file
    that is no directory, and its size is within the limit: no client is
    built, the service is not contacted and the file is not opened. *)
Theorem nothing_before_local_checks (host : Host) (afc : Command)
    (e : Event) :
  e ∈ snd (RunCommand host afc) →
  is_stat e = false →
  local_checks_pass host afc.
Proof.
  revert e. open_run afc; walk; sound; intros ev Hin Hstat;
    each_event Hin; subst ev; try discriminate Hstat; facts;
    repeat split; try done; lia.
Qed.

Lemma nothing_before_local_checks_witness :
  EvOssClient "b" ∈ snd (RunCommand local_host append_existing)
  ∧ is_stat (EvOssClient "b") = false
  ∧ local_checks_pass local_host append_existing.
Proof.
  assert (Hin : EvOssClient "b"
                ∈ snd (RunCommand local_host append_existing))
    by (vm_compute; find_event).
  split; [exact Hin|]. split; [reflexivity|].
  exact (nothing_before_local_checks local_host append_existing _ Hin
           eq_refl).
Defined.

(** X13.  The append call is made on the handle [os.OpenFile] returned,
    with the options made from [--meta] (none without it) followed by the
    progress listener. *)
Theorem append_call_arguments (host : Host) (afc : Command)
    (key : string) (file : File) (pos : Z) (opts : list oss_Option) :
  EvAppendObject key file pos opts ∈ snd (RunCommand host afc) →
  snd (opened host afc) = nil
  ∧ file = fst (opened host afc)
  ∧ opts = append_options host afc.
Proof.
  revert key file pos opts.
  open_run afc; walk; sound; intros key file pos opts H; each_event H;
    injection H as -> -> -> ->; facts; done.
Qed.

Lemma append_call_arguments_witness :
  EvAppendObject "new.log" (mkFile "log.txt") 0
    [Meta "X-Oss-Meta-Author" "chanju"; Progress]
  ∈ snd (RunCommand local_host append_new_with_meta)
  ∧ [Meta "X-Oss-Meta-Author" "chanju"; Progress]
    = append_options local_host append_new_with_meta.
Proof.
  assert (Hin : EvAppendObject "new.log" (mkFile "log.txt") 0
                  [Meta "X-Oss-Meta-Author" "chanju"; Progress]
                ∈ snd (RunCommand local_host append_new_with_meta))
    by (vm_compute; find_event).
  split; [exact Hin|].
  exact (proj2 (proj2 (append_call_arguments local_host
                         append_new_with_meta _ _ _ _ Hin))).
Defined.

(** X17.  When the object exists and its metadata cannot be fetched, or
    its [Content-Length] is missing or no decimal [int64], the command
    returns that error right after the metadata call: the local file is
    not opened and nothing is appended.  A missing header reads as the
    empty string, which [ParseInt] refuses as a syntax error. *)
Theorem unreadable_length_stops_the_append (host : Host) (afc : Command) :
  validates host afc →
  object_exists host afc →
  ossMeta_of host afc = "" →
  (snd (GetObjectMeta host (bucket_of host afc)
          (object (url_of host afc))) ≠ nil →
   RunCommand host afc =
   (Returns (snd (GetObjectMeta host (bucket_of host afc)
                    (object (url_of host afc)))),
    validation_trace host afc
    ++ [EvGetObjectMeta (object (url_of host afc))]))
  ∧ (snd (GetObjectMeta host (bucket_of host afc)
            (object (url_of host afc))) = nil →
     snd (reported_length host afc) ≠ nil →
     RunCommand host afc =
     (Returns (snd (reported_length host afc)),
      validation_trace host afc
      ++ [EvGetObjectMeta (object (url_of host afc))]))
  ∧ (fst (GetObjectMeta host (bucket_of host afc)
            (object (url_of host afc))) !! "Content-Length" = None →
     reported_length host afc = (0, NumError "ParseInt" "" ErrSyntax)).
Proof.
  intros (Hargs & Hurl & Hobj & Hstat & Hdir & Hsize & Hcl & Hbk) Hex Hmeta.
  two_arguments afc Hargs.
  revert Hurl Hobj Hstat Hdir Hsize Hcl Hbk Hex Hmeta.
  unfold RunCommand. unfold_vocabulary. simpl.
  destruct (GetString host OptionEncodingType o) as [enc e1].
  destruct (GetString host OptionMeta o) as [meta e2]. simpl.
  destruct (GetCloudUrl host s0 enc) as [url e3]. simpl.
  destruct (os_Stat host s) as [stat e4]. simpl.
  destruct (ossClient host _ (bucket url)) as [client e5]. simpl.
  destruct (client_Bucket host client (bucket url)) as [bkt e6]. simpl.
  intros -> Hobj -> -> Hsize -> -> -> ->.
  apply string_nonempty_true in Hobj. rewrite Hobj. simpl.
  replace (MaxAppendObjectSize host <? Size stat) with false
    by (symmetry; apply Z.ltb_ge; lia).
  destruct (GetObjectMeta host bkt (object url)) as [props e7]. simpl.
  split; [|split].
  - intros He. apply is_nil_false in He. rewrite He. simpl.
    by rewrite He.
  - intros -> Hlen. simpl.
    destruct (strconv.ParseInt (Get props "Content-Length")) as [n e8].
    simpl in *. apply is_nil_false in Hlen. by rewrite Hlen.
  - intros Hnone. unfold Get. rewrite Hnone. reflexivity.
Qed.

Lemma unreadable_length_stops_the_append_witness :
  validates headless_host append_existing
  ∧ object_exists headless_host append_existing
  ∧ ossMeta_of headless_host append_existing = ""
  ∧ RunCommand headless_host append_existing =
    (Returns (NumError "ParseInt" "" ErrSyntax),
     [EvStat "log.txt"; EvOssClient "b"; EvBucket "b";
      EvIsObjectExist "app.log"; EvGetObjectMeta "app.log"]).
Proof.
  assert (H1 : validates headless_host append_existing)
    by (repeat split; try reflexivity; discriminate).
  assert (H2 : object_exists headless_host append_existing)
    by reflexivity.
  assert (H3 : ossMeta_of headless_host append_existing = "")
    by reflexivity.
  split; [exact H1|]. split; [exact H2|]. split; [exact H3|].
  destruct (unreadable_length_stops_the_append headless_host
              append_existing H1 H2 H3) as (_ & H & _).
  rewrite H; [reflexivity|reflexivity|discriminate].
Defined.

End AppendOutputSpec.

(** ** The progress listener *)

Module ProgressSpec.
Import Progress.

(** The largest millisecond count an [int64] of nanoseconds can give. *)
Abbreviation MaxMilli := 9223372036854.

Lemma UnixMilli_range (now : Z) :
  1000000 <= now <= MaxInt64 → 1 <= UnixMilli now <= MaxMilli.
Proof.
  unfold UnixMilli, MaxInt64. intros H.
  Z.to_euclidean_division_equations. lia.
Qed.

Lemma int64_sub_small (a b : Z) :
  0 <= a <= MaxMilli → 0 <= b <= MaxMilli → int64_sub a b = a - b.
Proof.
  unfold int64_sub, wrap64. intros Ha Hb.
  change (2 ^ 63) with 9223372036854775808.
  change (2 ^ 64) with 18446744073709551616.
  rewrite Z.mod_small; lia.
Qed.

(** What one call does to a listener that holds a sample. *)
Lemma ProgressChanged_sampled l event now :
  lastMs l ≠ 0 →
  ProgressChanged l event now =
  if (is_data (EventType event) && (1000 <? int64_sub (UnixMilli now)
                                               (lastMs l)))
     || is_completed (EventType event)
  then
    ({| lastMs := UnixMilli now; lastSize := currSize l;
        currSize := ConsumedBytes event |},
     [{| consumed := ConsumedBytes event;
         rate_bytes := ConsumedBytes event;
         rate_total := TotalBytes event;
         speed_bytes := int64_sub (ConsumedBytes event) (currSize l);
         speed_ms := int64_sub (UnixMilli now) (lastMs l) |}])
  else (l, []).
Proof.
  intros Hl. apply Z.eqb_neq in Hl. unfold ProgressChanged. rewrite Hl.
  destruct (EventType event); simpl; try done;
    by destruct (1000 <? int64_sub (UnixMilli now) (lastMs l)).
Qed.

(** The reports of a transfer, seen from a listener that holds a sample:
    each status line measures the bytes and the time since the sample
    before it. *)
Lemma feed_sampled (calls : list (ProgressEvent * Z)) :
  ∀ l, 1 <= lastMs l <= MaxMilli →
  Forall clock_ok calls →
  (∀ r, snd (feed l calls) !! 0%nat = Some r →
        speed_ms (line r) = at_ms r - lastMs l
        ∧ speed_bytes (line r) = int64_sub (consumed (line r)) (currSize l)
        ∧ (cause r = TransferDataEvent → 1000 < at_ms r - lastMs l))
  ∧ (∀ i r1 r2, snd (feed l calls) !! i = Some r1 →
                snd (feed l calls) !! S i = Some r2 →
        speed_ms (line r2) = at_ms r2 - at_ms r1
        ∧ speed_bytes (line r2)
          = int64_sub (consumed (line r2)) (consumed (line r1))
        ∧ (cause r2 = TransferDataEvent → 1000 < at_ms r2 - at_ms r1)).
Proof.
  induction calls as [|[event now] calls IH]; intros l Hl Hclock.
  { simpl. split; intros; discriminate. }
  apply Forall_cons in Hclock as [Hnow Hclock].
  apply UnixMilli_range in Hnow. simpl in Hnow.
  cbn [feed]. rewrite ProgressChanged_sampled by lia.
  rewrite int64_sub_small by lia.
  destruct ((is_data (EventType event)
             && (1000 <? UnixMilli now - lastMs l))
            || is_completed (EventType event)) eqn:Hprint.
  - specialize (IH (mkListener (UnixMilli now) (currSize l)
                      (ConsumedBytes event)) Hnow Hclock).
    destruct (feed (mkListener (UnixMilli now) (currSize l)
                      (ConsumedBytes event)) calls) as [l2 reports].
    simpl in IH |- *. destruct IH as [IH0 IHadj]. split.
    + intros r Hr. injection Hr as <-. simpl.
      split; [done|]. split; [done|]. intros Hc. rewrite Hc in Hprint.
      simpl in Hprint. rewrite orb_false_r in Hprint.
      by apply Z.ltb_lt.
    + intros [|i] r1 r2 H1 H2; simpl in H1, H2.
      * injection H1 as <-. simpl. by apply IH0.
      * by apply (IHadj i).
  - specialize (IH l Hl Hclock).
    destruct (feed l calls) as [l2 reports]. simpl in IH |- *. done.
Qed.

(** X14.  In the reports of a transfer that starts with a fresh listener,
    each status line after the first shows the bytes consumed and the
    milliseconds elapsed since the status line before it, and a line
    caused by a data event comes more than 1000 ms after that line; only
    the completion line may come sooner. *)
Theorem status_lines_are_throttled (calls : list (ProgressEvent * Z))
    (i : nat) (r1 r2 : Report) :
  Forall clock_ok calls →
  snd (feed fresh calls) !! i = Some r1 →
  snd (feed fresh calls) !! S i = Some r2 →
  speed_ms (line r2) = at_ms r2 - at_ms r1
  ∧ speed_bytes (line r2)
    = int64_sub (consumed (line r2)) (consumed (line r1))
  ∧ (cause r2 = TransferDataEvent → 1000 < at_ms r2 - at_ms r1).
Proof.
  assert (Hfresh : ∀ l, lastMs l = 0 →
            Forall clock_ok calls →
            snd (feed l calls) !! i = Some r1 →
            snd (feed l calls) !! S i = Some r2 →
            speed_ms (line r2) = at_ms r2 - at_ms r1
            ∧ speed_bytes (line r2)
              = int64_sub (consumed (line r2)) (consumed (line r1))
            ∧ (cause r2 = TransferDataEvent → 1000 < at_ms r2 - at_ms r1)).
  { induction calls as [|[event now] calls IH]; intros l Hl Hclock;
      [discriminate|].
    apply Forall_cons in Hclock as [Hnow Hclock].
    apply UnixMilli_range in Hnow. simpl in Hnow.
    cbn [feed]. unfold ProgressChanged. rewrite Hl. simpl.
    destruct (is_data (EventType event) || is_completed (EventType event)).
    - pose proof (feed_sampled calls
                    (mkListener (UnixMilli now) (currSize l)
                       (ConsumedBytes event)) Hnow Hclock) as [_ Hadj].
      destruct (feed (mkListener (UnixMilli now) (currSize l)
                        (ConsumedBytes event)) calls) as [l2 reports].
      simpl in *. apply Hadj.
    - specialize (IH l Hl Hclock).
      destruct (feed l calls) as [l2 reports]. simpl in *. done. }
  by apply Hfresh.
Qed.

Lemma status_lines_are_throttled_witness :
  Forall clock_ok sample_transfer
  ∧ (∃ r1 r2,
       snd (feed fresh sample_transfer) !! 0%nat = Some r1
       ∧ snd (feed fresh sample_transfer) !! 1%nat = Some r2
       ∧ at_ms r1 = 6200 ∧ at_ms r2 = 8300
       ∧ speed_ms (line r2) = at_ms r2 - at_ms r1
       ∧ speed_bytes (line r2) = 2048).
Proof.
  assert (Hclock : Forall clock_ok sample_transfer).
  { repeat constructor; simpl; unfold MaxInt64; lia. }
  split; [exact Hclock|].
  eexists _, _. split; [reflexivity|]. split; [reflexivity|].
  split; [reflexivity|]. split; [reflexivity|].
  destruct (status_lines_are_throttled sample_transfer 0 _ _ Hclock
              eq_refl eq_refl) as (H1 & H2 & _).
  split; [exact H1|exact H2].
Defined.

(** Whether a listener that started fresh holds a sample after some
    calls. *)
Lemma sampled_after (calls : list (ProgressEvent * Z)) :
  ∀ l, lastMs l = 0 ∨ 1 <= lastMs l <= MaxMilli →
  Forall clock_ok calls →
  (lastMs (fst (feed l calls)) = 0 ∨ 1 <= lastMs (fst (feed l calls))
                                       <= MaxMilli)
  ∧ (lastMs (fst (feed l calls)) ≠ 0 ↔
     lastMs l ≠ 0 ∨ existsb relevant calls = true).
Proof.
  induction calls as [|[event now] calls IH]; intros l Hl Hclock.
  { simpl. split; [done|]. split; [by left|by intros [?|?]]. }
  apply Forall_cons in Hclock as [Hnow Hclock].
  apply UnixMilli_range in Hnow. simpl in Hnow.
  cbn [feed existsb]. unfold relevant at 1. cbn [fst].
  assert (Hstep :
    (is_data (EventType event) || is_completed (EventType event) = false
     ∧ fst (ProgressChanged l event now) = l)
    ∨ (is_data (EventType event) || is_completed (EventType event) = true
       ∧ (lastMs (fst (ProgressChanged l event now)) = UnixMilli now
          ∨ (fst (ProgressChanged l event now) = l ∧ lastMs l ≠ 0)))).
  { unfold ProgressChanged.
    destruct (is_data (EventType event) || is_completed (EventType event));
      [right|by left]. split; [done|].
    destruct (lastMs l =? 0) eqn:H0; [by left|].
    apply Z.eqb_neq in H0.
    destruct ((1000 <? int64_sub (UnixMilli now) (lastMs l))
              || is_completed (EventType event)); [by left|by right]. }
  destruct (ProgressChanged l event now) as [l1 out]. simpl in Hstep.
  assert (Hl1 : lastMs l1 = 0 ∨ 1 <= lastMs l1 <= MaxMilli).
  { destruct Hstep as [[_ ->]|[_ [->|[-> _]]]]; [done|by right|done]. }
  specialize (IH l1 Hl1 Hclock).
  destruct (feed l1 calls) as [l2 reports]. simpl in IH |- *.
  destruct IH as [IHr IHiff]. split; [done|]. rewrite IHiff.
  destruct Hstep as [[-> ->]|[-> [Hms|[-> Hne]]]]; simpl.
  - done.
  - split; [by right|]. intros _. left. lia.
  - split; [by left|]. intros _. by left.
Qed.

(** Calls the listener does not react to leave it as it is. *)
Lemma feed_irrelevant (calls : list (ProgressEvent * Z))
    (l : AppendProgressListener) :
  existsb relevant calls = false → feed l calls = (l, []).
Proof.
  revert l. induction calls as [|[event now] calls IH]; intros l; [done|].
  cbn [existsb]. unfold relevant at 1. cbn [fst]. intros Hnone.
  apply orb_false_iff in Hnone as [Hev Hrest].
  cbn [feed]. unfold ProgressChanged. by rewrite Hev, IH.
Qed.

(** X15.  The first data or completion event a fresh listener sees only
    takes the first sample (the clock reading and the bytes consumed) and
    writes nothing, nor does any event of another kind before it; a
    completion event that comes after it always writes one status line,
    however little time has passed.  So a transfer whose completion event
    is the first such event writes no line at all. *)
Theorem completion_line_needs_a_sample (pre : list (ProgressEvent * Z))
    (event : ProgressEvent) (now : Z) :
  Forall clock_ok pre →
  (existsb relevant pre = false →
   snd (feed fresh pre) = []
   ∧ snd (ProgressChanged (fst (feed fresh pre)) event now) = []
   ∧ (relevant (event, now) = true →
      fst (ProgressChanged (fst (feed fresh pre)) event now)
      = mkListener (UnixMilli now) 0 (ConsumedBytes event)))
  ∧ (EventType event = TransferCompletedEvent →
     existsb relevant pre = true →
     ∃ status,
       snd (ProgressChanged (fst (feed fresh pre)) event now) = [status]
       ∧ consumed status = ConsumedBytes event
       ∧ rate_total status = TotalBytes event).
Proof.
  intros Hclock. split.
  - intros Hpre. rewrite (feed_irrelevant pre fresh Hpre). simpl.
    split; [done|]. unfold ProgressChanged, relevant. simpl.
    destruct (is_data (EventType event) || is_completed (EventType event));
      by split.
  - intros Hty Hpre.
    destruct (sampled_after pre fresh (or_introl eq_refl) Hclock)
      as [_ Hiff].
    assert (lastMs (fst (feed fresh pre)) ≠ 0) as Hne
      by (apply Hiff; by right).
    rewrite ProgressChanged_sampled, Hty by done. simpl. eauto.
Qed.

Lemma completion_line_needs_a_sample_witness :
  Forall clock_ok [data 512 5000]
  ∧ snd (ProgressChanged (fst (feed fresh [])) (fst (data 512 5000))
           (snd (data 512 5000))) = []
  ∧ snd (ProgressChanged (fst (feed fresh [])) (fst (completed 10 5000))
           (snd (completed 10 5000))) = []
  ∧ ∃ status,
      snd (ProgressChanged (fst (feed fresh [data 512 5000]))
             (fst (completed 4096 5001)) (snd (completed 4096 5001)))
      = [status]
      ∧ consumed status = 4096.
Proof.
  assert (Hclock : Forall clock_ok [data 512 5000]).
  { repeat constructor; simpl; unfold MaxInt64; lia. }
  split; [exact Hclock|]. split; [|split].
  - destruct (proj1 (completion_line_needs_a_sample [] (fst (data 512 5000))
                       (snd (data 512 5000)) (Forall_nil_2 _)) eq_refl)
      as (_ & H & _).
    exact H.
  - destruct (proj1 (completion_line_needs_a_sample []
                       (fst (completed 10 5000))
                       (snd (completed 10 5000)) (Forall_nil_2 _)) eq_refl)
      as (_ & H & _).
    exact H.
  - destruct (proj2 (completion_line_needs_a_sample [data 512 5000]
                       (fst (completed 4096 5001))
                       (snd (completed 4096 5001)) Hclock) eq_refl eq_refl)
      as (status & H1 & H2 & _).
    exists status. split; [exact H1|exact H2].
Defined.

(** X16.  Events of any other kind are ignored: leaving them out of the
    calls of a transfer changes neither the listener nor the reports. *)
Theorem other_events_are_ignored (calls : list (ProgressEvent * Z))
    (l : AppendProgressListener) :
  feed l calls = feed l (List.filter relevant calls).
Proof.
  revert l. induction calls as [|[event now] calls IH]; intros l; [done|].
  cbn [List.filter]. unfold relevant at 1. cbn [fst].
  destruct (is_data (EventType event) || is_completed (EventType event))
    eqn:Hrel.
  - cbn [feed]. destruct (ProgressChanged l event now) as [l1 out].
    by rewrite IH.
  - cbn [feed]. unfold ProgressChanged. rewrite Hrel, IH.
    by destruct (feed l (List.filter relevant calls)).
Qed.

End ProgressSpec.
